(** * TurboGet download engine: a shallow embedding of [turbo_get/engine.py]

    The engine of [engine.py] is an object whose methods mutate its fields,
    touch two files (the destination and the sidecar metadata file) and
    talk to an HTTP server.  The embedding keeps that shape:

    - [ChunkInfo], [ServerCapabilities] are the dataclasses of [models.py];
    - [DownloadEngine] holds the fields of the Python object, [World] the
      two files and the log of observable effects (callbacks, requests,
      sleeps);
    - every method is a computation in the monad [M], which threads the
      state and carries Python exceptions;
    - what the outside does (the server's replies, the caller's
      [pause]/[resume]/[stop] calls arriving while a coroutine awaits) is
      an explicit script passed to the method.

    Python integers are unbounded, hence [Z].  The [speed] field of
    [ChunkInfo], the speed limit and the throughput monitor compute with
    floats and the wall clock and are left out. *)

From Stdlib Require Import ZArith Lia Bool Ascii String.
From stdpp Require Import base list.

Open Scope Z_scope.
Open Scope string_scope.

(** ** Data model ([models.py]) *)

Record ChunkInfo := mkChunk {
  start : Z;
  end_ : Z;
  downloaded : Z;
  completed : bool;
  retries : Z;
  thread_id : option Z
}.

Record ServerCapabilities := mkCaps {
  supports_range : bool;
  supports_resume : bool;
  supports_compression : bool;
  supports_http2 : bool;
  max_connections : Z;
  content_encoding : option string
}.

(** [ServerCapabilities()] with the dataclass defaults. *)
Definition default_capabilities : ServerCapabilities :=
  {| supports_range := false; supports_resume := false;
     supports_compression := false; supports_http2 := false;
     max_connections := 8; content_encoding := None |}.

(** [ChunkInfo(start=s, end=e)]. *)
Definition new_chunk (s e : Z) : ChunkInfo :=
  {| start := s; end_ := e; downloaded := 0; completed := false;
     retries := 0; thread_id := None |}.

(** Number of bytes of the range [[start, end]]. *)
Definition chunk_len (c : ChunkInfo) : Z := end_ c - start c + 1.

(** Field updates of a chunk object. *)
Definition set_downloaded (d : Z) (c : ChunkInfo) : ChunkInfo :=
  {| start := start c; end_ := end_ c; downloaded := d;
     completed := completed c; retries := retries c;
     thread_id := thread_id c |}.

Definition set_completed (b : bool) (c : ChunkInfo) : ChunkInfo :=
  {| start := start c; end_ := end_ c; downloaded := downloaded c;
     completed := b; retries := retries c; thread_id := thread_id c |}.

Definition set_retries (r : Z) (c : ChunkInfo) : ChunkInfo :=
  {| start := start c; end_ := end_ c; downloaded := downloaded c;
     completed := completed c; retries := r; thread_id := thread_id c |}.

Definition set_thread_id (w : option Z) (c : ChunkInfo) : ChunkInfo :=
  {| start := start c; end_ := end_ c; downloaded := downloaded c;
     completed := completed c; retries := retries c; thread_id := w |}.

(** ** Exceptions, files, effects *)

Inductive Exn :=
| ClientError          (* aiohttp.ClientError, also ClientResponseError *)
| TimeoutError         (* asyncio.TimeoutError *)
| OSError              (* IOError, FileNotFoundError, PermissionError *)
| JSONDecodeError
| KeyError
| ValueError
| TypeError
| AttributeError
| ZeroDivisionError
| UnboundLocalError
| OverflowError        (* int / int beyond the floats *)
| RuntimeError         (* a request on a closed client session *)
| UnicodeDecodeError.  (* reading a text file whose bytes do not decode *)

(** What [json.load] finds in the sidecar.  [data['chunks']] is absent
    ([KeyError]), holds entries the [ChunkInfo] constructor rejects ([TypeError])
    or is a list of chunk records. *)
Inductive ChunksField :=
| ChunksMissing
| ChunksInvalid
| ChunksList (cs : list ChunkInfo).

Record SidecarDoc := mkDoc {
  doc_url : option string;          (* data.get('url') *)
  doc_total_size : option Z;        (* data.get('total_size') *)
  doc_chunks : ChunksField;         (* data['chunks'] *)
  doc_supports_resume : bool;
  doc_mirrors : list string
}.

(** The sidecar as [load_metadata] meets it: [open] fails, the bytes of
    the file do not decode as text, [json.load] fails, the document is
    not a JSON object, or it is one.  The sidecar path, when it exists,
    names a regular file of a directory in which [unlink] succeeds. *)
Inductive SidecarFile :=
| Unreadable
| Undecodable
| Malformed
| NotAnObject
| Document (d : SidecarDoc).

Inductive Session := SessionOpen | SessionClosed.
Inductive Task := TaskRunning | TaskCancelled.

Inductive StatusMsg :=
| MsgDetecting
| MsgServerSupports (range : bool) (total : Z)
| MsgDetectFailed
| MsgMetadataMismatch
| MsgResuming (already : Z)
| MsgLoadFailed (e : Exn)
| MsgSaveFailed
| MsgChunkFailed (worker : Z)
| MsgRetry (worker attempt max_retries : Z) (e : Exn) (wait : Z)
| MsgPaused
| MsgResumed
| MsgStopping
| MsgVerifying
| MsgFileNotFound
| MsgSizeMismatch (expected actual : Z)
| MsgCalculating
| MsgVerified (digest_prefix : string).

Inductive Effect :=
| Status (m : StatusMsg)                       (* _update_status *)
| Progress (done total : Z)                    (* progress_callback *)
| Head (u : string)                            (* session.head *)
| Request (u : string) (range : option (Z * Z))  (* session.get *)
| FileWrite (pos len : Z)                      (* f.write at an offset *)
| Sleep (secs : Z)                             (* backoff sleep *)
| PollSleep                                    (* asyncio.sleep(0.1) *)
| Gather (workers : list Z).                   (* asyncio.gather *)

(** ** Engine and world *)

Record DownloadEngine := mkEngine {
  url : string;
  num_threads : Z;
  total_size : Z;
  downloaded_size : Z;
  chunks : list ChunkInfo;
  capabilities : option ServerCapabilities;
  mirrors : list string;
  current_mirror_index : nat;
  is_paused : bool;
  is_stopped : bool;
  session : option Session
}.

Record World := mkWorld {
  output_file : option (list Byte.byte);   (* destination, [None]: absent *)
  metadata_file : option SidecarFile;      (* sidecar, [None]: absent *)
  dir_writable : bool;                     (* can files be written here *)
  monitor_task : option Task;              (* local [monitor_task] of
                                              [download], [None]: unbound *)
  effects : list Effect                    (* oldest first *)
}.

Record State := mkState { engine : DownloadEngine; world : World }.

(** [DownloadEngine.__init__]. *)
Definition new_engine (u : string) (n : Z) : DownloadEngine :=
  {| url := u; num_threads := n; total_size := 0; downloaded_size := 0;
     chunks := []; capabilities := None; mirrors := [];
     current_mirror_index := 0%nat; is_paused := false;
     is_stopped := false; session := None |}.

Definition set_num_threads (n : Z) (e : DownloadEngine) : DownloadEngine :=
  {| url := url e; num_threads := n; total_size := total_size e;
     downloaded_size := downloaded_size e; chunks := chunks e;
     capabilities := capabilities e; mirrors := mirrors e;
     current_mirror_index := current_mirror_index e;
     is_paused := is_paused e; is_stopped := is_stopped e;
     session := session e |}.

Definition set_total_size (n : Z) (e : DownloadEngine) : DownloadEngine :=
  {| url := url e; num_threads := num_threads e; total_size := n;
     downloaded_size := downloaded_size e; chunks := chunks e;
     capabilities := capabilities e; mirrors := mirrors e;
     current_mirror_index := current_mirror_index e;
     is_paused := is_paused e; is_stopped := is_stopped e;
     session := session e |}.

Definition set_downloaded_size (n : Z) (e : DownloadEngine) : DownloadEngine :=
  {| url := url e; num_threads := num_threads e; total_size := total_size e;
     downloaded_size := n; chunks := chunks e;
     capabilities := capabilities e; mirrors := mirrors e;
     current_mirror_index := current_mirror_index e;
     is_paused := is_paused e; is_stopped := is_stopped e;
     session := session e |}.

Definition set_chunks (cs : list ChunkInfo) (e : DownloadEngine) : DownloadEngine :=
  {| url := url e; num_threads := num_threads e; total_size := total_size e;
     downloaded_size := downloaded_size e; chunks := cs;
     capabilities := capabilities e; mirrors := mirrors e;
     current_mirror_index := current_mirror_index e;
     is_paused := is_paused e; is_stopped := is_stopped e;
     session := session e |}.

Definition set_capabilities (c : ServerCapabilities) (e : DownloadEngine)
  : DownloadEngine :=
  {| url := url e; num_threads := num_threads e; total_size := total_size e;
     downloaded_size := downloaded_size e; chunks := chunks e;
     capabilities := Some c; mirrors := mirrors e;
     current_mirror_index := current_mirror_index e;
     is_paused := is_paused e; is_stopped := is_stopped e;
     session := session e |}.

Definition set_is_paused (b : bool) (e : DownloadEngine) : DownloadEngine :=
  {| url := url e; num_threads := num_threads e; total_size := total_size e;
     downloaded_size := downloaded_size e; chunks := chunks e;
     capabilities := capabilities e; mirrors := mirrors e;
     current_mirror_index := current_mirror_index e;
     is_paused := b; is_stopped := is_stopped e;
     session := session e |}.

Definition set_is_stopped (b : bool) (e : DownloadEngine) : DownloadEngine :=
  {| url := url e; num_threads := num_threads e; total_size := total_size e;
     downloaded_size := downloaded_size e; chunks := chunks e;
     capabilities := capabilities e; mirrors := mirrors e;
     current_mirror_index := current_mirror_index e;
     is_paused := is_paused e; is_stopped := b;
     session := session e |}.

Definition set_session (s : Session) (e : DownloadEngine) : DownloadEngine :=
  {| url := url e; num_threads := num_threads e; total_size := total_size e;
     downloaded_size := downloaded_size e; chunks := chunks e;
     capabilities := capabilities e; mirrors := mirrors e;
     current_mirror_index := current_mirror_index e;
     is_paused := is_paused e; is_stopped := is_stopped e;
     session := Some s |}.

Definition set_output_file (f : option (list Byte.byte)) (w : World) : World :=
  {| output_file := f; metadata_file := metadata_file w;
     dir_writable := dir_writable w; monitor_task := monitor_task w;
     effects := effects w |}.

Definition set_metadata_file (f : option SidecarFile) (w : World) : World :=
  {| output_file := output_file w; metadata_file := f;
     dir_writable := dir_writable w; monitor_task := monitor_task w;
     effects := effects w |}.

Definition set_monitor_task (t : option Task) (w : World) : World :=
  {| output_file := output_file w; metadata_file := metadata_file w;
     dir_writable := dir_writable w; monitor_task := t;
     effects := effects w |}.

Definition log_effect (x : Effect) (w : World) : World :=
  {| output_file := output_file w; metadata_file := metadata_file w;
     dir_writable := dir_writable w; monitor_task := monitor_task w;
     effects := effects w ++ [x] |}.

(** ** The monad of engine methods

    A method either returns, raises, or is still awaiting an event its
    script does not supply ([Pending]); the state reached so far is kept
    in every case, as Python keeps the mutations made before a raise. *)

Inductive Outcome (A : Type) :=
| Return (a : A)
| Raise (x : Exn)
| Pending.
Arguments Return {A} a.
Arguments Raise {A} x.
Arguments Pending {A}.

Definition M (A : Type) : Type := State -> Outcome A * State.

Definition ret {A} (a : A) : M A := fun s => (Return a, s).
Definition raise {A} (x : Exn) : M A := fun s => (Raise x, s).
Definition pending {A} : M A := fun s => (Pending, s).

Definition bind {A B} (m : M A) (k : A -> M B) : M B :=
  fun s =>
    match m s with
    | (Return a, s') => k a s'
    | (Raise x, s') => (Raise x, s')
    | (Pending, s') => (Pending, s')
    end.

Declare Scope engine_scope.
Delimit Scope engine_scope with engine.
Notation "x <- m ;; k" := (bind m (fun x => k))
  (at level 100, m at next level, right associativity) : engine_scope.
Notation "m ;; k" := (bind m (fun _ => k))
  (at level 100, right associativity) : engine_scope.
Open Scope engine_scope.

(** [try: body except <handled>: handler]. *)
Definition try_except {A} (body : M A) (handled : Exn -> bool)
  (handler : Exn -> M A) : M A :=
  fun s =>
    match body s with
    | (Raise x, s') => if handled x then handler x s' else (Raise x, s')
    | r => r
    end.

(** [try: body finally: cleanup]: the cleanup runs after a return or a
    raise of the body; when the cleanup itself raises, that exception
    replaces the body's result. *)
Definition try_finally {A} (body : M A) (cleanup : M unit) : M A :=
  fun s =>
    match body s with
    | (Return a, s') =>
        match cleanup s' with
        | (Return _, s'') => (Return a, s'')
        | (Raise y, s'') => (Raise y, s'')
        | (Pending, s'') => (Pending, s'')
        end
    | (Raise x, s') =>
        match cleanup s' with
        | (Return _, s'') => (Raise x, s'')
        | (Raise y, s'') => (Raise y, s'')
        | (Pending, s'') => (Pending, s'')
        end
    | (Pending, s') => (Pending, s')
    end.

Definition get_engine : M DownloadEngine := fun s => (Return (engine s), s).
Definition get_world : M World := fun s => (Return (world s), s).

Definition upd_engine (f : DownloadEngine -> DownloadEngine) : M unit :=
  fun s => (Return tt, {| engine := f (engine s); world := world s |}).

Definition upd_world (f : World -> World) : M unit :=
  fun s => (Return tt, {| engine := engine s; world := f (world s) |}).

Definition emit (x : Effect) : M unit := upd_world (log_effect x).

(** [_update_status]. *)
Definition _update_status (m : StatusMsg) : M unit := emit (Status m).

Definition when (b : bool) (m : M unit) : M unit := if b then m else ret tt.

(** [self.capabilities.<field>]: an [AttributeError] while it is [None]. *)
Definition get_capabilities : M ServerCapabilities :=
  e <- get_engine ;;
  match capabilities e with
  | Some c => ret c
  | None => raise AttributeError
  end.

(** ** Response headers

    [response.headers] is a case-insensitive multi-dictionary: [in] and
    [[]] compare names without regard to case and [[]] gives the first
    value. *)

Definition Headers := list (string * string).

Definition lower_ascii (c : ascii) : ascii :=
  let n := nat_of_ascii c in
  if (65 <=? n)%nat && (n <=? 90)%nat then ascii_of_nat (n + 32) else c.

Fixpoint lower (s : string) : string :=
  match s with
  | EmptyString => EmptyString
  | String c s' => String (lower_ascii c) (lower s')
  end.

Fixpoint header_get (name : string) (h : Headers) : option string :=
  match h with
  | [] => None
  | (k, v) :: h' =>
      if String.eqb (lower k) (lower name) then Some v else header_get name h'
  end.

Definition header_in (name : string) (h : Headers) : bool :=
  match header_get name h with Some _ => true | None => false end.

(** [s.split('/')[-1]]: what follows the last slash, all of [s] when it
    has none. *)
Fixpoint last_segment (s cur : string) : string :=
  match s with
  | EmptyString => cur
  | String c s' =>
      if Ascii.eqb c "/" then last_segment s' EmptyString
      else last_segment s' (cur ++ String c EmptyString)
  end.

(** [int(s)] on text of code points below 256: surrounding white space
    (the characters 9 to 13, 32, 133 and 160), one optional sign, decimal
    digits with single underscores between them, and no more than 4300
    digits in all (the default of [sys.set_int_max_str_digits]); [None]
    stands for [ValueError]. *)
Definition is_space (c : ascii) : bool :=
  let n := nat_of_ascii c in
  (n =? 32)%nat || ((9 <=? n)%nat && (n <=? 13)%nat) ||
  (n =? 133)%nat || (n =? 160)%nat.

Definition digit_of (c : ascii) : option Z :=
  let n := nat_of_ascii c in
  if (48 <=? n)%nat && (n <=? 57)%nat then Some (Z.of_nat n - 48) else None.

Fixpoint lstrip (s : string) : string :=
  match s with
  | String c s' => if is_space c then lstrip s' else s
  | EmptyString => EmptyString
  end.

Fixpoint rstrip (s : string) : string :=
  match s with
  | EmptyString => EmptyString
  | String c s' =>
      match rstrip s' with
      | EmptyString => if is_space c then EmptyString else String c EmptyString
      | t => String c t
      end
  end.

Fixpoint digits (s : string) (acc : Z) (after_digit : bool) : option Z :=
  match s with
  | EmptyString => if after_digit then Some acc else None
  | String c s' =>
      match digit_of c with
      | Some d => digits s' (10 * acc + d) true
      | None =>
          if Ascii.eqb c "_" && after_digit then digits s' acc false
          else None
      end
  end.

Definition max_str_digits : nat := 4300.

Fixpoint count_digits (s : string) : nat :=
  match s with
  | EmptyString => 0
  | String c s' =>
      match digit_of c with
      | Some _ => S (count_digits s')
      | None => count_digits s'
      end
  end.

Definition py_int (s : string) : option Z :=
  let t := rstrip (lstrip s) in
  if (max_str_digits <? count_digits t)%nat then None
  else
    match t with
    | String "+" r => digits r 0 false
    | String "-" r => option_map Z.opp (digits r 0 false)
    | _ => digits t 0 false
    end.

(** ** Capability probe ([initialize], [detect_capabilities]) *)

(** The server's answer to the HEAD request: the request raises, or a
    response with headers arrives. *)
Inductive ProbeReply :=
| ProbeFails (x : Exn)
| ProbeHeaders (h : Headers).

(** The [ServerCapabilities(...)] built from the response headers. *)
Definition probe_capabilities (h : Headers) : ServerCapabilities :=
  {| supports_range :=
       header_in "Accept-Ranges" h &&
       negb (match header_get "Accept-Ranges" h with
             | Some v => String.eqb v "none"
             | None => false
             end);
     supports_resume := header_in "Accept-Ranges" h;
     supports_compression := false;
     supports_http2 := false;
     max_connections := 8;
     content_encoding := header_get "Content-Encoding" h |}.

(** The integer the probe reads for [total_size]: from [Content-Range],
    else from [Content-Length], else 0; [None] when [int] raises. *)
Definition parsed_total_size (h : Headers) : option Z :=
  match header_get "Content-Range" h with
  | Some v => py_int (last_segment v EmptyString)
  | None =>
      match header_get "Content-Length" h with
      | Some v => py_int v
      | None => Some 0
      end
  end.

Definition probe_total_size (h : Headers) : M unit :=
  match parsed_total_size h with
  | Some n => upd_engine (set_total_size n)
  | None => raise ValueError
  end.

(** [n / (1024*1024)] in a status message: the true division of integers
    raises [OverflowError] when the quotient is beyond the floats, that
    is from [2^1044 - 2^990] on in absolute value. *)
Definition megabytes_overflow (n : Z) : bool :=
  (2 ^ 1044 - 2 ^ 990 <=? Z.abs n)%Z.

Arguments megabytes_overflow : simpl never.

(** [self.session.head]: an [AttributeError] while [self.session] is
    [None], the [RuntimeError] of a closed client session; no request
    leaves in either case. *)
Definition open_session : M unit :=
  e <- get_engine ;;
  match session e with
  | Some SessionOpen => ret tt
  | Some SessionClosed => raise RuntimeError
  | None => raise AttributeError
  end.

Definition detect_capabilities (reply : ProbeReply) : M unit :=
  try_except
    (_update_status MsgDetecting ;;
     open_session ;;
     e <- get_engine ;;
     emit (Head (url e)) ;;
     match reply with
     | ProbeFails x => raise x
     | ProbeHeaders h =>
         upd_engine (set_capabilities (probe_capabilities h)) ;;
         probe_total_size h ;;
         c <- get_capabilities ;;
         when (negb (supports_range c)) (upd_engine (set_num_threads 1)) ;;
         e' <- get_engine ;;
         if megabytes_overflow (total_size e') then raise OverflowError
         else
           _update_status
             (MsgServerSupports (supports_range c) (total_size e'))
     end)
    (fun _ => true)
    (fun _ =>
       _update_status MsgDetectFailed ;;
       upd_engine (set_capabilities default_capabilities)).

(** [initialize]: the TLS context and the client session are built, then
    the probe runs.  [tls_ok = false] stands for a raise while the context
    or the session is being built, before [self.session] is assigned. *)
Definition initialize (tls_ok : bool) (reply : ProbeReply) : M unit :=
  (if tls_ok then upd_engine (set_session SessionOpen) else raise OSError) ;;
  detect_capabilities reply.

(** ** Resume metadata ([save_metadata], [load_metadata]) *)

Definition sum_downloaded (cs : list ChunkInfo) : Z :=
  fold_right (fun c acc => downloaded c + acc) 0 cs.

Definition doc_matches (d : SidecarDoc) (e : DownloadEngine) : bool :=
  match doc_url d, doc_total_size d with
  | Some u, Some n => String.eqb u (url e) && Z.eqb n (total_size e)
  | _, _ => false
  end.

Definition is_some {A} (o : option A) : bool :=
  match o with Some _ => true | None => false end.

(** The exceptions [load_metadata] handles: [IOError],
    [json.JSONDecodeError], [KeyError]. *)
Definition load_handled (x : Exn) : bool :=
  match x with
  | OSError | JSONDecodeError | KeyError => true
  | _ => false
  end.

Definition load_metadata : M unit :=
  try_except
    (w <- get_world ;;
     match metadata_file w with
     | None => raise OSError
     | Some Unreadable => raise OSError
     | Some Undecodable => raise UnicodeDecodeError
     | Some Malformed => raise JSONDecodeError
     | Some NotAnObject => raise AttributeError
     | Some (Document d) =>
         e <- get_engine ;;
         if negb (doc_matches d e) then
           _update_status MsgMetadataMismatch ;;
           upd_world (set_metadata_file None)
         else
           match doc_chunks d with
           | ChunksMissing => raise KeyError
           | ChunksInvalid => raise TypeError
           | ChunksList cs =>
               upd_engine (set_chunks cs) ;;
               upd_engine (set_downloaded_size (sum_downloaded cs)) ;;
               _update_status (MsgResuming (sum_downloaded cs))
           end
     end)
    load_handled
    (fun x =>
       _update_status (MsgLoadFailed x) ;;
       w <- get_world ;;
       when (is_some (metadata_file w)) (upd_world (set_metadata_file None))).

Definition save_metadata : M unit :=
  c <- get_capabilities ;;
  if negb (supports_resume c) then ret tt
  else
    e <- get_engine ;;
    w <- get_world ;;
    if dir_writable w then
      upd_world (set_metadata_file (Some (Document
        {| doc_url := Some (url e);
           doc_total_size := Some (total_size e);
           doc_chunks := ChunksList (chunks e);
           doc_supports_resume := supports_resume c;
           doc_mirrors := mirrors e |})))
    else _update_status MsgSaveFailed.

(** ** Chunk planner ([prepare_chunks]) *)

(** [range(n)]. *)
Definition range (n : Z) : list Z := map Z.of_nat (seq 0 (Z.to_nat n)).

(** The chunk appended for index [i] of the loop. *)
Definition plan_chunk (total num chunk_size i : Z) : ChunkInfo :=
  let s := i * chunk_size in
  let e := s + chunk_size - 1 in
  new_chunk s (if Z.eqb i (num - 1) then total - 1 else e).

Definition plan_chunks (total num : Z) : list ChunkInfo :=
  let chunk_size := total / num in
  map (plan_chunk total num chunk_size) (range num).

Definition append_chunks (cs : list ChunkInfo) : M unit :=
  upd_engine (fun e => set_chunks (chunks e ++ cs) e).

Definition prepare_chunks : M unit :=
  w <- get_world ;;
  if is_some (metadata_file w) then load_metadata
  else
    c <- get_capabilities ;;
    e <- get_engine ;;
    if supports_range c && Z.ltb 0 (total_size e) then
      if Z.eqb (num_threads e) 0 then raise ZeroDivisionError
      else append_chunks (plan_chunks (total_size e) (num_threads e))
    else
      append_chunks
        [new_chunk 0 (if Z.ltb 0 (total_size e) then total_size e - 1 else -1)].

(** ** Control surface ([pause], [resume], [stop]) *)

Definition pause : M unit :=
  upd_engine (set_is_paused true) ;; _update_status MsgPaused.

Definition resume : M unit :=
  upd_engine (set_is_paused false) ;; _update_status MsgResumed.

Definition stop : M unit :=
  upd_engine (set_is_stopped true) ;; _update_status MsgStopping.

(** [is_running]. *)
Definition is_running (e : DownloadEngine) : bool :=
  negb (is_paused e) && negb (is_stopped e).

(** A call the owner of the engine makes while a worker is suspended. *)
Inductive ControlCall := CallPause | CallResume | CallStop.

Definition control (c : ControlCall) : M unit :=
  match c with
  | CallPause => pause
  | CallResume => resume
  | CallStop => stop
  end.

Fixpoint controls (cs : list ControlCall) : M unit :=
  match cs with
  | [] => ret tt
  | c :: cs' => control c ;; controls cs'
  end.

(** ** Claim protocol ([get_next_chunk])

    The chunk vector is the store of chunk objects; a reference to a
    chunk is its index in the vector. *)

Definition is_free (c : ChunkInfo) : bool :=
  negb (completed c) && negb (is_some (thread_id c)).

Fixpoint find_free (cs : list ChunkInfo) (i : nat) : option nat :=
  match cs with
  | [] => None
  | c :: cs' => if is_free c then Some i else find_free cs' (S i)
  end.

Definition upd_chunk (i : nat) (f : ChunkInfo -> ChunkInfo) : M unit :=
  upd_engine (fun e => set_chunks (alter f i (chunks e)) e).

(** Dereference; an index outside the vector designates no object, the
    model raises there. *)
Definition get_chunk (i : nat) : M ChunkInfo :=
  e <- get_engine ;;
  match chunks e !! i with
  | Some c => ret c
  | None => raise AttributeError
  end.

Definition get_next_chunk (worker_id : Z) : M (option nat) :=
  e <- get_engine ;;
  match find_free (chunks e) 0 with
  | Some i => upd_chunk i (set_thread_id (Some worker_id)) ;; ret (Some i)
  | None => ret None
  end.

(** ** Chunk transfer and retry ([download_chunk_with_retry]) *)

(** What arrives while the body of a response is streamed: a block of
    data from [iter_chunked(8192)], or a call of the owner made while the
    worker awaits the next block. *)
Inductive StreamEvent :=
| Block (data : list Byte.byte)
| Call (c : ControlCall).

(** How the stream ends: end of body, an exception out of the iterator,
    or nothing more is known ([StreamCut]: the worker is still waiting). *)
Inductive StreamEnd :=
| EndOfBody
| StreamRaises (x : Exn)
| StreamCut.

Inductive Reply :=
| GetRaises (x : Exn)
| GetPending
| Response (status : Z) (body : list StreamEvent) (fin : StreamEnd).

(** One iteration of the retry loop as the outside drives it. *)
Record Attempt := mkAttempt {
  while_connecting : list ControlCall;   (* calls while [session.get] is awaited *)
  reply : Reply;
  while_backing_off : list ControlCall   (* calls during the backoff sleep *)
}.

(** [get_current_url]. *)
Definition get_current_url (e : DownloadEngine) : string :=
  match mirrors e with
  | [] => url e
  | _ =>
      match mirrors e !! current_mirror_index e with
      | Some m => m
      | None => url e
      end
  end.

Definition block_len (data : list Byte.byte) : Z := Z.of_nat (length data).

(** [f.write(data)] at offset [pos] of a file opened ['r+b']: bytes are
    overwritten in place, a gap past the end is filled with zeros. *)
Definition write_at (pos : nat) (data content : list Byte.byte)
  : list Byte.byte :=
  take pos content ++ replicate (pos - length content)%nat Byte.x00
    ++ data ++ drop (pos + length data)%nat content.

(** The body of the block loop after the stop check. *)
Definition write_block (i : nat) (pos : Z) (data : list Byte.byte) : M unit :=
  upd_world (fun w =>
    set_output_file
      (option_map (write_at (Z.to_nat pos) data) (output_file w)) w) ;;
  emit (FileWrite pos (block_len data)) ;;
  upd_chunk i (fun c => set_downloaded (downloaded c + block_len data) c) ;;
  upd_engine (fun e =>
    set_downloaded_size (downloaded_size e + block_len data) e) ;;
  e <- get_engine ;;
  emit (Progress (downloaded_size e) (total_size e)).

(** [async for data in response.content.iter_chunked(8192)]: [true] when
    the loop runs to the end of the body, [false] for the [return False]
    on the stop flag. *)
Fixpoint stream_body (i : nat) (pos : Z) (body : list StreamEvent)
  (fin : StreamEnd) : M bool :=
  match body with
  | [] =>
      match fin with
      | EndOfBody => ret true
      | StreamRaises x => raise x
      | StreamCut => pending
      end
  | Call c :: rest => control c ;; stream_body i pos rest fin
  | Block data :: rest =>
      e <- get_engine ;;
      if is_stopped e then ret false
      else
        write_block i pos data ;;
        stream_body i (pos + block_len data) rest fin
  end.

(** The [Range] header of an attempt: [Some (from, to)] for
    [bytes=from-to], [None] for no header. *)
Definition request_range (c : ServerCapabilities) (chunk : ChunkInfo)
  : option (Z * Z) :=
  let from := start chunk + downloaded chunk in
  if supports_range c && (from <=? end_ chunk)%Z then Some (from, end_ chunk)
  else None.

Definition accepted (status : Z) : bool :=
  Z.eqb status 200 || Z.eqb status 206.

(** The [try] block of one attempt. *)
Definition attempt_body (i : nat) (a : Attempt) : M bool :=
  e <- get_engine ;;
  if is_stopped e then ret false
  else
    chunk <- get_chunk i ;;
    c <- get_capabilities ;;
    let from := start chunk + downloaded chunk in
    (if is_some (session e) then ret tt else raise AttributeError) ;;
    emit (Request (get_current_url e) (request_range c chunk)) ;;
    controls (while_connecting a) ;;
    match reply a with
    | GetRaises x => raise x
    | GetPending => pending
    | Response status body fin =>
        if negb (accepted status) then raise ClientError
        else
          w <- get_world ;;
          if negb (is_some (output_file w)) then raise OSError
          else if Z.ltb from 0 then raise OSError
          else
            ok <- stream_body i from body fin ;;
            if ok then upd_chunk i (set_completed true) ;; ret true
            else ret false
    end.

(** The exceptions the retry loop handles: [aiohttp.ClientError] and
    [asyncio.TimeoutError]. *)
Definition retryable (x : Exn) : bool :=
  match x with
  | ClientError | TimeoutError => true
  | _ => false
  end.

Definition wait_time (attempt : Z) : Z := Z.min (2 ^ attempt) 30.

(** The [except] block of one attempt. *)
Definition on_retry (i : nat) (worker_id max_retries attempt : Z)
  (a : Attempt) (x : Exn) : M unit :=
  upd_chunk i (fun c => set_retries (retries c + 1) c) ;;
  _update_status
    (MsgRetry worker_id (attempt + 1) max_retries x (wait_time attempt)) ;;
  emit (Sleep (wait_time attempt)) ;;
  controls (while_backing_off a).

(** [for attempt in range(max_retries)], [todo] iterations left. *)
Fixpoint retry_loop (i : nat) (worker_id max_retries : Z) (todo : nat)
  (attempt : Z) (script : list Attempt) : M bool :=
  match todo with
  | O => ret false
  | S todo' =>
      match script with
      | [] =>
          e <- get_engine ;;
          if is_stopped e then ret false else pending
      | a :: rest =>
          try_except (attempt_body i a) retryable
            (fun x =>
               on_retry i worker_id max_retries attempt a x ;;
               retry_loop i worker_id max_retries todo' (attempt + 1) rest)
      end
  end.

Definition download_chunk_with_retry (i : nat) (worker_id max_retries : Z)
  (script : list Attempt) : M bool :=
  retry_loop i worker_id max_retries (Z.to_nat max_retries) 0 script.

(** ** Worker ([download_worker]) *)

(** One turn of the worker's outer loop as the outside drives it: the
    calls arriving during each 0.1 s sleep of the pause loop, then the
    attempts on the claimed chunk. *)
Record Round := mkRound {
  polls : list (list ControlCall);
  attempts : list Attempt
}.

(** [while self.is_paused]: [true] to go on, [false] for the [return]. *)
Fixpoint pause_loop (ps : list (list ControlCall)) : M bool :=
  e <- get_engine ;;
  if is_paused e then
    match ps with
    | [] => pending
    | cs :: ps' =>
        emit PollSleep ;;
        controls cs ;;
        e' <- get_engine ;;
        if is_stopped e' then ret false else pause_loop ps'
    end
  else ret true.

Definition worker_round (worker_id : Z) (r : Round) (next : M unit) : M unit :=
  go <- pause_loop (polls r) ;;
  if negb go then ret tt
  else
    c <- get_next_chunk worker_id ;;
    match c with
    | None => ret tt
    | Some i =>
        success <- download_chunk_with_retry i worker_id 5 (attempts r) ;;
        (if success then save_metadata
         else _update_status (MsgChunkFailed worker_id)) ;;
        next
    end.

Fixpoint download_worker (worker_id : Z) (script : list Round) : M unit :=
  e <- get_engine ;;
  if is_stopped e then ret tt
  else
    match script with
    | [] => worker_round worker_id {| polls := []; attempts := [] |} pending
    | r :: rest => worker_round worker_id r (download_worker worker_id rest)
    end.

(** ** Verifier ([verify_download]) and orchestration ([download]) *)

Section Orchestration.

(** [hashlib.sha256] fed the whole file, as its hexadecimal digest. *)
Variable sha256_hexdigest : list Byte.byte -> string.

(** The joint run of the workers under [asyncio.gather], whatever the
    interleaving the event loop chooses. *)
Variable pool : list Z -> M unit.

Definition size_mismatch (e : DownloadEngine) (content : list Byte.byte)
  : bool :=
  Z.ltb 0 (total_size e) &&
  negb (Z.eqb (Z.of_nat (length content)) (total_size e)).

Definition verify_download : M unit :=
  _update_status MsgVerifying ;;
  w <- get_world ;;
  match output_file w with
  | None => _update_status MsgFileNotFound
  | Some content =>
      e <- get_engine ;;
      if size_mismatch e content then
        _update_status
          (MsgSizeMismatch (total_size e) (Z.of_nat (length content)))
      else
        _update_status MsgCalculating ;;
        _update_status
          (MsgVerified (substring 0 16 (sha256_hexdigest content))) ;;
        w' <- get_world ;;
        when (is_some (metadata_file w'))
             (upd_world (set_metadata_file None))
  end.

(** Pre-allocation of the destination. *)
Definition preallocate : M unit :=
  e <- get_engine ;;
  w <- get_world ;;
  if Z.ltb 0 (total_size e) && negb (is_some (output_file w)) then
    if dir_writable w then
      upd_world (set_output_file
        (Some (replicate (Z.to_nat (total_size e)) Byte.x00)))
    else raise OSError
  else ret tt.

(** The [try] block of [download]. *)
Definition download_body (tls_ok : bool) (reply : ProbeReply) : M unit :=
  initialize tls_ok reply ;;
  prepare_chunks ;;
  preallocate ;;
  e <- get_engine ;;
  let tasks := range (num_threads e) in
  upd_world (set_monitor_task (Some TaskRunning)) ;;
  emit (Gather tasks) ;;
  pool tasks ;;
  e' <- get_engine ;;
  when (negb (is_stopped e')) verify_download.

(** The [finally] block of [download]. *)
Definition download_cleanup : M unit :=
  w <- get_world ;;
  (if is_some (monitor_task w)
   then upd_world (set_monitor_task (Some TaskCancelled))
   else raise UnboundLocalError) ;;
  e <- get_engine ;;
  when (is_some (session e)) (upd_engine (set_session SessionClosed)).

(** [download]; its local [monitor_task] starts unbound. *)
Definition download (tls_ok : bool) (reply : ProbeReply) : M unit :=
  upd_world (set_monitor_task None) ;;
  try_finally (download_body tls_ok reply) download_cleanup.

End Orchestration.

(** A pool that runs the workers one after the other, each on its own
    script; it serves to run [download] on examples. *)
Fixpoint sequential_pool (scripts : list (list Round)) (workers : list Z)
  : M unit :=
  match workers with
  | [] => ret tt
  | w :: ws =>
      download_worker w (hd [] scripts) ;;
      sequential_pool (tl scripts) ws
  end.

(** * Properties *)

(** Running a method for its final state or for its outcome. *)
Definition exec {A} (m : M A) (s : State) : State := snd (m s).
Definition outcome {A} (m : M A) (s : State) : Outcome A := fst (m s).

(** A world with no file yet, and the state of an engine just built. *)
Definition empty_world : World :=
  {| output_file := None; metadata_file := None; dir_writable := true;
     monitor_task := None; effects := [] |}.

Definition initial (u : string) (n : Z) (w : World) : State :=
  {| engine := new_engine u n; world := w |}.

(** ** Chunk planner *)

(** [tiles cs from upto]: the chunks of [cs], in order, are non-empty
    ranges laid end to end from offset [from] to offset [upto]. *)
Fixpoint tiles (cs : list ChunkInfo) (from upto : Z) : Prop :=
  match cs with
  | [] => from = upto + 1
  | c :: cs' =>
      start c = from /\ start c <= end_ c /\ tiles cs' (end_ c + 1) upto
  end.

Definition total_len (cs : list ChunkInfo) : Z :=
  fold_right (fun c acc => chunk_len c + acc) 0 cs.

Lemma tiles_bounds cs : forall from upto,
  tiles cs from upto -> from <= upto + 1.
Proof.
  induction cs as [|c cs IH]; simpl; intros from upto H.
  - lia.
  - destruct H as (Hs & Hle & Ht). apply IH in Ht. lia.
Qed.

Lemma tiles_total_len cs : forall from upto,
  tiles cs from upto -> total_len cs = upto - from + 1.
Proof.
  induction cs as [|c cs IH]; simpl; intros from upto H.
  - lia.
  - destruct H as (Hs & Hle & Ht). rewrite (IH _ _ Ht).
    unfold chunk_len. lia.
Qed.

Lemma tiles_cover cs : forall from upto x,
  tiles cs from upto ->
  (from <= x <= upto <-> exists c, In c cs /\ start c <= x <= end_ c).
Proof.
  induction cs as [|c cs IH]; simpl; intros from upto x H.
  - split; [lia | intros (c & [] & _)].
  - destruct H as (Hs & Hle & Ht).
    pose proof (tiles_bounds _ _ _ Ht) as Hb.
    specialize (IH _ _ x Ht). split.
    + intros Hx. destruct (Z_le_gt_dec x (end_ c)) as [Hin|Hout].
      * exists c. split; [now left | lia].
      * destruct IH as [IH _]. destruct IH as (c' & Hc' & Hr); [lia|].
        exists c'. split; [now right | exact Hr].
    + intros (c' & [<- | Hc'] & Hr); [lia|].
      destruct IH as [_ IH]. specialize (IH (ex_intro _ c' (conj Hc' Hr))).
      lia.
Qed.

Lemma tiles_after cs : forall from upto c,
  tiles cs from upto -> In c cs -> from <= start c.
Proof.
  induction cs as [|c0 cs IH]; simpl; intros from upto c H Hin; [easy|].
  destruct H as (Hs & Hle & Ht). destruct Hin as [<- | Hin]; [lia|].
  specialize (IH _ _ _ Ht Hin). lia.
Qed.

Lemma tiles_disjoint cs : forall from upto (i j : nat) ci cj,
  tiles cs from upto ->
  cs !! i = Some ci -> cs !! j = Some cj -> (i < j)%nat ->
  end_ ci < start cj.
Proof.
  induction cs as [|c cs IH]; intros from upto i j ci cj H Hi Hj Hlt;
    [easy|].
  destruct H as (Hs & Hle & Ht). destruct j as [|j]; [lia|].
  simpl in Hj. destruct i as [|i]; simpl in Hi.
  - injection Hi as <-.
    assert (In cj cs) as Hin by (apply list_elem_of_In; eapply list_elem_of_lookup_2; eauto).
    pose proof (tiles_after _ _ _ _ Ht Hin). lia.
  - eapply IH; eauto. lia.
Qed.

Section Plan.

Variables total num : Z.
Hypothesis Hnum : 1 <= num.
Hypothesis Hfit : num <= total.

Let size := total / num.

Lemma chunk_size_pos : 1 <= size.
Proof. subst size. apply Z.div_le_lower_bound; lia. Qed.

Lemma chunk_size_fits : num * size <= total.
Proof. subst size. apply Z.mul_div_le. lia. Qed.

Lemma plan_tail_tiles (n : nat) : forall k : nat,
  (k + S n = Z.to_nat num)%nat ->
  tiles (map (plan_chunk total num size) (map Z.of_nat (seq k (S n))))
        (Z.of_nat k * size) (total - 1).
Proof.
  pose proof chunk_size_pos as Hpos. pose proof chunk_size_fits as Hle.
  induction n as [|n IH]; intros k Hk.
  - assert (Z.of_nat k = num - 1) as Hlast by lia.
    cbn [seq map tiles]. unfold plan_chunk, new_chunk. cbn [start end_].
    rewrite Hlast, Z.eqb_refl. repeat split; nia.
  - change (seq k (S (S n))) with (k :: seq (S k) (S n)).
    cbn [map tiles].
    set (rest := map _ (map _ (seq (S k) (S n)))).
    assert (Z.of_nat k <> num - 1) as Hne by lia.
    apply Z.eqb_neq in Hne.
    unfold plan_chunk, new_chunk. cbn [start end_]. rewrite Hne.
    split; [reflexivity|]. split; [lia|].
    replace (Z.of_nat k * size + size - 1 + 1)
      with (Z.of_nat (S k) * size) by lia.
    apply IH. lia.
Qed.

(** With at least one byte per worker, the fresh plan has [num] chunks
    that tile [[0, total - 1]]. *)
Lemma plan_chunks_tiles :
  length (plan_chunks total num) = Z.to_nat num /\
  tiles (plan_chunks total num) 0 (total - 1).
Proof.
  unfold plan_chunks, range. fold size. split.
  - now rewrite !length_map, length_seq.
  - destruct (Z.to_nat num) as [|n] eqn:Hn; [lia|].
    apply (plan_tail_tiles n 0%nat). lia.
Qed.

End Plan.

(** On a fresh engine without sidecar, [prepare_chunks] installs
    [plan_chunks] when the server supports ranges and the size is known. *)
Lemma prepare_chunks_fresh_plan s c :
  metadata_file (world s) = None ->
  capabilities (engine s) = Some c ->
  supports_range c = true ->
  0 < total_size (engine s) ->
  num_threads (engine s) <> 0 ->
  chunks (engine s) = [] ->
  outcome prepare_chunks s = Return tt /\
  chunks (engine (exec prepare_chunks s)) =
    plan_chunks (total_size (engine s)) (num_threads (engine s)).
Proof.
  intros Hmeta Hcaps Hrange Htotal Hnum Hchunks.
  unfold outcome, exec, prepare_chunks, bind, get_world, get_capabilities,
    get_engine, ret.
  cbn. rewrite Hmeta. cbn. rewrite Hcaps. cbn. rewrite Hrange.
  apply Z.ltb_lt in Htotal. rewrite Htotal. cbn.
  apply Z.eqb_neq in Hnum. rewrite Hnum. cbn.
  now rewrite Hchunks.
Qed.

(** C3. A server supporting ranges announces 3 bytes and the engine runs
    its default 8 workers, no sidecar: [prepare_chunks] plans eight
    chunks, of which seven are [[0, -1]], so not every chunk satisfies
    [start <= end]. *)
Theorem prepare_chunks_more_workers_than_bytes :
  let probe :=
    ProbeHeaders [("Accept-Ranges", "bytes"); ("Content-Length", "3")] in
  let s := exec (initialize true probe ;; prepare_chunks)
                (initial "http://t/f" 8 empty_world) in
  num_threads (engine s) = 8 /\
  chunks (engine s) = (replicate 7 (new_chunk 0 (-1)) ++ [new_chunk 0 2])%list /\
  ~ Forall (fun c => start c <= end_ c) (chunks (engine s)).
Proof.
  intros probe s.
  assert (chunks (engine s) =
          (replicate 7 (new_chunk 0 (-1)) ++ [new_chunk 0 2])%list)
    as Hcs by (vm_compute; reflexivity).
  split; [vm_compute; reflexivity|]. split; [exact Hcs|].
  rewrite Hcs. intros H. apply Forall_inv in H. simpl in H. lia.
Qed.

(** ** Sidecar handling in the planner *)

(** A sidecar [load_metadata] turns down: unreadable, not JSON, stale, or
    without a [chunks] entry. *)
Definition turned_down (f : SidecarFile) (e : DownloadEngine) : Prop :=
  match f with
  | Unreadable | Malformed => True
  | Undecodable | NotAnObject => False
  | Document d => doc_matches d e = false \/ doc_chunks d = ChunksMissing
  end.

(** Whenever the sidecar is turned down, [prepare_chunks] returns with
    the sidecar deleted and the chunk vector as it was. *)
Lemma prepare_chunks_turned_down s f :
  metadata_file (world s) = Some f ->
  turned_down f (engine s) ->
  outcome prepare_chunks s = Return tt /\
  metadata_file (world (exec prepare_chunks s)) = None /\
  engine (exec prepare_chunks s) = engine s.
Proof.
  intros Hmeta Hdown.
  destruct s as [e [out meta dw mt eff]]. cbn in Hmeta, Hdown. subst meta.
  unfold outcome, exec, prepare_chunks, load_metadata, try_except, bind,
    get_world, get_engine, ret.
  destruct f as [| | | |d]; cbn in *; try easy.
  destruct (doc_matches d e) eqn:Hm; cbn; [|easy].
  destruct Hdown as [Hdown|Hdown]; [discriminate|].
  rewrite Hdown. cbn. easy.
Qed.

Definition stale_url_doc : SidecarDoc :=
  {| doc_url := Some "http://t/other"; doc_total_size := Some 1000000;
     doc_chunks := ChunksList [new_chunk 0 499999; new_chunk 500000 999999];
     doc_supports_resume := true; doc_mirrors := [] |}.

Definition stale_size_doc : SidecarDoc :=
  {| doc_url := Some "http://t/f"; doc_total_size := Some 999;
     doc_chunks := ChunksList [new_chunk 0 998];
     doc_supports_resume := true; doc_mirrors := [] |}.

(** C1. The probe announces 1000000 bytes with range support and the
    engine has 4 workers.  Without sidecar the chunk vector is the fresh
    partition; with a sidecar that is unreadable, not JSON, or disagrees
    on the url or the size, [prepare_chunks] deletes the sidecar and
    leaves the chunk vector empty. *)
Theorem prepare_chunks_discarded_sidecar_plans_nothing :
  let probe :=
    ProbeHeaders [("Accept-Ranges", "bytes"); ("Content-Length", "1000000")] in
  let run f := exec (initialize true probe ;; prepare_chunks)
                    (initial "http://t/f" 4 (set_metadata_file f empty_world)) in
  chunks (engine (run None)) =
    [new_chunk 0 249999; new_chunk 250000 499999;
     new_chunk 500000 749999; new_chunk 750000 999999] /\
  Forall (fun f => chunks (engine (run (Some f))) = [] /\
                   metadata_file (world (run (Some f))) = None)
    [Unreadable; Malformed; Document stale_url_doc; Document stale_size_doc].
Proof.
  intros probe run. split; [vm_compute; reflexivity|].
  repeat constructor; vm_compute; reflexivity.
Qed.

(** ** Capability probe *)

Definition gathered (l : list Effect) : list (list Z) :=
  omap (fun x => match x with Gather ws => Some ws | _ => None end) l.

Definition five_bytes : list Byte.byte :=
  [Byte.x68; Byte.x65; Byte.x6c; Byte.x6c; Byte.x6f].

(** A worker script: one attempt answered 200 with a five-byte body. *)
Definition one_shot : list Round :=
  [{| polls := [];
      attempts := [{| while_connecting := [];
                      reply := Response 200 [Block five_bytes] EndOfBody;
                      while_backing_off := [] |}] |}].

(** C6. The HEAD request of the probe raises on an engine built with 8
    workers: the capabilities are the defaults, [total_size] stays 0 and
    a single chunk [[0, -1]] is planned, but [num_threads] is still 8
    and [download] starts eight workers.  The chunk is streamed when the
    destination already exists; when it does not, nothing pre-allocates
    it (the size is unknown) and the worker's [open(..., 'r+b')] raises
    out of [download]. *)
Theorem probe_failure_keeps_worker_count :
  let s := exec (initialize true (ProbeFails ClientError))
                (initial "http://t/f" 8 empty_world) in
  let run w := download (fun _ => "") (sequential_pool [one_shot]) true
                        (ProbeFails ClientError) (initial "http://t/f" 8 w) in
  let s' := snd (run (set_output_file (Some []) empty_world)) in
  capabilities (engine s) = Some default_capabilities /\
  total_size (engine s) = 0 /\
  num_threads (engine s) = 8 /\
  chunks (engine s') =
    [set_thread_id (Some 0)
       (set_completed true (set_downloaded 5 (new_chunk 0 (-1))))] /\
  gathered (effects (world s')) = [[0; 1; 2; 3; 4; 5; 6; 7]] /\
  fst (run empty_world) = Raise OSError.
Proof. vm_compute. repeat split; reflexivity. Qed.

(** ** Exit paths of [download] *)


(** C5. The probe announces 1024 bytes, the destination does not exist
    and cannot be created: pre-allocation raises before [monitor_task] is
    bound, the [finally] block raises [UnboundLocalError] at
    [monitor_task.cancel()] and the session, open since [initialize], is
    never closed.  This holds whatever the workers would have done. *)
Theorem download_early_raise_leaks_session :
  forall (sha : list Byte.byte -> string) (pool : list Z -> M unit),
  let w := {| output_file := None; metadata_file := None;
              dir_writable := false; monitor_task := None;
              effects := [] |} in
  let r := download sha pool true
             (ProbeHeaders [("Content-Length", "1024")])
             (initial "http://t/f" 8 w) in
  fst r = Raise UnboundLocalError /\
  session (engine (snd r)) = Some SessionOpen /\
  monitor_task (world (snd r)) = None.
Proof. intros sha pool. vm_compute. repeat split; reflexivity. Qed.

(** ** Verifier *)

(** C8. [verify_download] always returns and never touches the engine
    or the destination file.  When the destination is missing, or
    [total_size > 0] and the size on disk differs from it, it reports
    that after the "verifying" status and leaves the sidecar as it was;
    otherwise it reports the first 16 hexadecimal characters of the
    SHA-256 of the file and the sidecar is gone afterwards. *)
Theorem verify_download_deletes_only_sidecar
  (sha : list Byte.byte -> string) (s : State) :
  let s' := exec (verify_download sha) s in
  let total := total_size (engine s) in
  outcome (verify_download sha) s = Return tt /\
  engine s' = engine s /\
  output_file (world s') = output_file (world s) /\
  match output_file (world s) with
  | None =>
      metadata_file (world s') = metadata_file (world s) /\
      effects (world s') =
        (effects (world s) ++ [Status MsgVerifying; Status MsgFileNotFound])%list
  | Some content =>
      let size := Z.of_nat (length content) in
      if Z.ltb 0 total && negb (Z.eqb size total) then
        metadata_file (world s') = metadata_file (world s) /\
        effects (world s') =
          (effects (world s) ++
             [Status MsgVerifying; Status (MsgSizeMismatch total size)])%list
      else
        metadata_file (world s') = None /\
        effects (world s') =
          (effects (world s) ++
             [Status MsgVerifying; Status MsgCalculating;
              Status (MsgVerified (substring 0 16 (sha content)))])%list
  end.
Proof.
  destruct s as [e [out meta dw mt eff]].
  unfold exec, outcome, verify_download, size_mismatch, bind, get_world,
    get_engine, _update_status, emit, upd_world, when, ret.
  cbn. destruct out as [content|]; cbn.
  - destruct (Z.ltb 0 (total_size e) &&
              negb (Z.eqb (Z.of_nat (length content)) (total_size e)));
      cbn.
    + rewrite <- !app_assoc. easy.
    + destruct meta; cbn; rewrite <- !app_assoc; easy.
  - rewrite <- !app_assoc. easy.
Qed.

(** ** Resume support as the probe reports it *)

(** [Accept-Ranges] is there, the size after the slash of
    [Content-Range] is a star: [int] raises, the handler installs the
    defaults and [supports_resume] ends false. *)
Definition starred_headers : Headers :=
  [("Accept-Ranges", "bytes"); ("Content-Range", "bytes 0-0/*")].

Lemma accept_ranges_present_without_resume :
  let s' := exec (initialize true (ProbeHeaders starred_headers))
                 (initial "http://t/f" 8 empty_world) in
  header_get "Accept-Ranges" starred_headers = Some "bytes" /\
  session (engine s') = Some SessionOpen /\
  capabilities (engine s') = Some default_capabilities /\
  supports_resume default_capabilities = false.
Proof. vm_compute. repeat split; reflexivity. Qed.

(** C10. [detect_capabilities] leaves [capabilities] set, and its
    [supports_resume] is true exactly when the probe runs to its end
    with an [Accept-Ranges] header in the response, whatever the value
    of that header: the session is open, the HEAD request returns a
    response, the size it announces parses and the status message that
    prints it in megabytes can be built.  In every other case the
    handler installs the defaults and [supports_resume] is false, with
    or without the header.  When the probe runs to its end on
    [Accept-Ranges: none], [supports_resume] is true with
    [supports_range] false (and one worker), and [save_metadata] then
    writes the sidecar wherever it can be written. *)
Theorem accept_ranges_presence_enables_resume
  (reply : ProbeReply) (s : State) :
  let s' := exec (detect_capabilities reply) s in
  exists c,
    capabilities (engine s') = Some c /\
    (supports_resume c = true <->
     session (engine s) = Some SessionOpen /\
     exists h n,
       reply = ProbeHeaders h /\
       parsed_total_size h = Some n /\
       megabytes_overflow n = false /\
       header_get "Accept-Ranges" h <> None) /\
    (forall h n,
       session (engine s) = Some SessionOpen ->
       reply = ProbeHeaders h ->
       parsed_total_size h = Some n ->
       megabytes_overflow n = false ->
       header_get "Accept-Ranges" h = Some "none" ->
       supports_resume c = true /\
       supports_range c = false /\
       num_threads (engine s') = 1 /\
       total_size (engine s') = n /\
       (dir_writable (world s') = true ->
        exists d,
          metadata_file (world (exec save_metadata s')) = Some (Document d) /\
          doc_url d = Some (url (engine s')) /\
          doc_total_size d = Some n /\
          doc_chunks d = ChunksList (chunks (engine s')))).
Proof.
  cbn zeta. destruct s as [e [out meta dw mt eff]].
  unfold exec, detect_capabilities, open_session, save_metadata,
    probe_total_size, probe_capabilities, header_in, try_except, bind,
    get_engine, get_world, get_capabilities, _update_status, emit, upd_world,
    upd_engine, when, ret, raise.
  cbn.
  destruct (session e) as [[|]|]; cbn;
    [|exists default_capabilities; split; [reflexivity|];
      split; [split; [discriminate | intros [? _]; discriminate]
             | intros; discriminate]..].
  destruct reply as [x|h]; cbn.
  { exists default_capabilities. split; [reflexivity|].
    split; [split; [discriminate|] | intros; discriminate].
    intros (_ & h & n & ? & _). discriminate. }
  destruct (parsed_total_size h) as [n|] eqn:Hn; cbn.
  2: { exists default_capabilities. split; [reflexivity|].
       split; [split; [discriminate|] | intros; congruence].
       intros (_ & h' & n' & [= <-] & ? & _). congruence. }
  destruct (header_get "Accept-Ranges" h) as [v|] eqn:Hv; cbn.
  2: { destruct (megabytes_overflow n) eqn:Hov; cbn;
         eexists; (split; [reflexivity|]); cbn;
         (split; [split; [discriminate|] | intros; congruence]);
         intros (_ & h' & n' & [= <-] & ? & ? & ?); congruence. }
  destruct (String.eqb_spec v "none") as [->|Hne]; cbn;
    destruct (megabytes_overflow n) eqn:Hov; cbn;
    eexists; (split; [reflexivity|]); cbn.
  - split; [split; [discriminate|] | intros h' n' _ [= <-]; congruence].
    intros (_ & h' & n' & [= <-] & ? & ? & _). congruence.
  - split.
    + split; [|reflexivity]. intros _. split; [reflexivity|].
      exists h, n. split_and!; congruence.
    + intros h' n' _ [= <-] Hn' _ _.
      assert (n' = n) as -> by congruence.
      split_and!; try reflexivity. intros ->. cbn.
      eexists. split; [reflexivity|]. easy.
  - split; [split; [discriminate|] | intros h' n' _ [= <-]; congruence].
    intros (_ & h' & n' & [= <-] & ? & ? & _). congruence.
  - split.
    + split; [|reflexivity]. intros _. split; [reflexivity|].
      exists h, n. split_and!; congruence.
    + intros h' n' _ [= <-] _ _ Hv'. congruence.
Qed.

Definition none_headers : Headers :=
  [("Accept-Ranges", "none"); ("Content-Length", "1024")].

(** The engine as [initialize] hands it to the probe: the session is
    open. *)
Definition session_opened : State :=
  exec (upd_engine (set_session SessionOpen))
       (initial "http://t/f" 8 empty_world).

Lemma accept_ranges_presence_enables_resume_witness :
  exists c,
    capabilities
      (engine (exec (detect_capabilities (ProbeHeaders none_headers))
                    session_opened)) = Some c /\
    supports_resume c = true /\ supports_range c = false.
Proof.
  destruct (accept_ranges_presence_enables_resume
              (ProbeHeaders none_headers) session_opened)
    as (c & Hc & _ & Hnone).
  exists c. split; [exact Hc|].
  destruct (Hnone none_headers 1024 eq_refl eq_refl eq_refl eq_refl eq_refl)
    as (Hres & Hrange & _).
  split; assumption.
Defined.

(** ** Reasoning about a transfer

    What a run of the transfer code appends to the effect log is read
    back through three projections; [moved i s s' new done] says that
    [s'] is [s] after the chunk of index [i] was advanced with the
    effects [new], and marked completed when [done]. *)

Definition written (l : list Effect) : Z :=
  fold_right
    (fun x acc => match x with FileWrite _ n => n + acc | _ => acc end) 0 l.

Definition sleeps (l : list Effect) : list Z :=
  omap (fun x => match x with Sleep n => Some n | _ => None end) l.

Definition requests (l : list Effect) : list (string * option (Z * Z)) :=
  omap (fun x => match x with Request u r => Some (u, r) | _ => None end) l.

Lemma written_app l1 l2 : written (l1 ++ l2) = written l1 + written l2.
Proof.
  induction l1 as [|x l1 IH]; simpl; [reflexivity|].
  destruct x; rewrite ?IH; lia.
Qed.

Lemma sleeps_app l1 l2 : sleeps (l1 ++ l2) = (sleeps l1 ++ sleeps l2)%list.
Proof. apply omap_app. Qed.

Lemma requests_app l1 l2 :
  requests (l1 ++ l2) = (requests l1 ++ requests l2)%list.
Proof. apply omap_app. Qed.

Definition same_config (e e' : DownloadEngine) : Prop :=
  url e' = url e /\ num_threads e' = num_threads e /\
  total_size e' = total_size e /\ capabilities e' = capabilities e /\
  mirrors e' = mirrors e /\
  current_mirror_index e' = current_mirror_index e /\
  session e' = session e.

Definition same_files (w w' : World) : Prop :=
  metadata_file w' = metadata_file w /\ dir_writable w' = dir_writable w /\
  monitor_task w' = monitor_task w /\
  is_some (output_file w') = is_some (output_file w).

Definition chunk_moved (new : list Effect) (done : bool) (c c' : ChunkInfo)
  : Prop :=
  start c' = start c /\ end_ c' = end_ c /\ thread_id c' = thread_id c /\
  downloaded c' = downloaded c + written new /\
  retries c' = retries c + Z.of_nat (length (sleeps new)) /\
  completed c' = completed c || done.

Record moved (i : nat) (s s' : State) (new : list Effect) (done : bool)
  : Prop := mkMoved {
  mv_config : same_config (engine s) (engine s');
  mv_files : same_files (world s) (world s');
  mv_effects : effects (world s') = (effects (world s) ++ new)%list;
  mv_size :
    downloaded_size (engine s') = downloaded_size (engine s) + written new;
  mv_nonneg : 0 <= written new;
  mv_other :
    forall j, j <> i -> chunks (engine s') !! j = chunks (engine s) !! j;
  mv_chunk :
    forall c, chunks (engine s) !! i = Some c ->
    exists c', chunks (engine s') !! i = Some c' /\ chunk_moved new done c c'
}.

Lemma same_config_refl e : same_config e e.
Proof. unfold same_config. tauto. Qed.

Lemma same_config_trans e1 e2 e3 :
  same_config e1 e2 -> same_config e2 e3 -> same_config e1 e3.
Proof. unfold same_config. intuition congruence. Qed.

Lemma same_files_refl w : same_files w w.
Proof. unfold same_files. tauto. Qed.

Lemma same_files_trans w1 w2 w3 :
  same_files w1 w2 -> same_files w2 w3 -> same_files w1 w3.
Proof. unfold same_files. intuition congruence. Qed.

Lemma chunk_moved_refl c : chunk_moved [] false c c.
Proof.
  unfold chunk_moved. simpl. rewrite orb_false_r. repeat split; lia.
Qed.

Lemma chunk_moved_trans n1 n2 d1 d2 c1 c2 c3 :
  chunk_moved n1 d1 c1 c2 -> chunk_moved n2 d2 c2 c3 ->
  chunk_moved (n1 ++ n2) (d1 || d2) c1 c3.
Proof.
  unfold chunk_moved. intros (?&?&?&?&?&?) (?&?&?&?&?&?).
  rewrite written_app, sleeps_app, length_app, orb_assoc.
  repeat split; try congruence; lia.
Qed.

Lemma moved_refl i s : moved i s s [] false.
Proof.
  constructor; simpl; auto using same_config_refl, same_files_refl.
  - now rewrite app_nil_r.
  - lia.
  - reflexivity.
  - intros c Hc. exists c. auto using chunk_moved_refl.
Qed.

Lemma moved_trans i s1 s2 s3 n1 n2 d1 d2 :
  moved i s1 s2 n1 d1 -> moved i s2 s3 n2 d2 ->
  moved i s1 s3 (n1 ++ n2) (d1 || d2).
Proof.
  intros [C1 F1 E1 S1 N1 O1 K1] [C2 F2 E2 S2 N2 O2 K2]. constructor.
  - eauto using same_config_trans.
  - eauto using same_files_trans.
  - now rewrite E2, E1, app_assoc.
  - rewrite S2, S1, written_app. lia.
  - rewrite written_app. lia.
  - intros j Hj. now rewrite O2, O1.
  - intros c Hc. destruct (K1 c Hc) as (c2 & Hc2 & M1).
    destruct (K2 c2 Hc2) as (c3 & Hc3 & M2).
    exists c3. eauto using chunk_moved_trans.
Qed.

Lemma moved_emit i s x :
  written [x] = 0 -> sleeps [x] = [] ->
  moved i s (exec (emit x) s) [x] false.
Proof.
  intros Hw Hs. destruct s as [e w].
  constructor; cbn -[written sleeps];
    auto using same_config_refl, same_files_refl.
  - unfold same_files. cbn. tauto.
  - rewrite Hw. lia.
  - rewrite Hw. lia.
  - intros c Hc. exists c. split; [exact Hc|].
    unfold chunk_moved. rewrite Hw, Hs, orb_false_r. simpl.
    repeat split; lia.
Qed.

Lemma moved_control i c s :
  exists x, outcome (control c) s = Return tt /\
            moved i s (exec (control c) s) [Status x] false.
Proof.
  destruct c; destruct s as [e w]; eexists; (split; [reflexivity|]);
    (constructor; cbn;
     [ unfold same_config; cbn; tauto
     | unfold same_files; cbn; tauto
     | reflexivity | lia | lia | reflexivity
     | intros c Hc; exists c; split; [exact Hc|];
       unfold chunk_moved; cbn; rewrite orb_false_r; repeat split; lia ]).
Qed.

Definition quiet (new : list Effect) : Prop :=
  requests new = [] /\ sleeps new = [] /\ written new = 0.

Lemma quiet_app l1 l2 : quiet l1 -> quiet l2 -> quiet (l1 ++ l2).
Proof.
  unfold quiet. intros (R1 & S1 & W1) (R2 & S2 & W2).
  rewrite requests_app, sleeps_app, written_app, R1, R2, S1, S2.
  repeat split. lia.
Qed.

(** Calls of the owner always return; they only log a status and set a
    flag. *)
Lemma controls_spec i cs : forall s r s',
  controls cs s = (r, s') ->
  r = Return tt /\ exists new, moved i s s' new false /\ quiet new.
Proof.
  induction cs as [|c cs IH]; intros s r s' H.
  - cbn in H. injection H as <- <-. split; [reflexivity|].
    exists []. split; [apply moved_refl | easy].
  - cbn [controls] in H. unfold bind in H.
    destruct (moved_control i c s) as (x & Hout & Hmv).
    unfold outcome, exec in Hout, Hmv.
    destruct (control c s) as [r1 s1]. cbn in Hout, Hmv. subst r1.
    destruct (IH _ _ _ H) as (-> & new & Hmv2 & Hq).
    split; [reflexivity|]. exists ([Status x] ++ new)%list. split.
    + change false with (false || false). eapply moved_trans; eauto.
    + apply quiet_app; [easy | exact Hq].
Qed.

Lemma block_len_nonneg data : 0 <= block_len data.
Proof. unfold block_len. lia. Qed.

Lemma moved_write_block i pos data s :
  outcome (write_block i pos data) s = Return tt /\
  moved i s (exec (write_block i pos data) s)
    [FileWrite pos (block_len data);
     Progress (downloaded_size (engine s) + block_len data)
              (total_size (engine s))] false.
Proof.
  pose proof (block_len_nonneg data) as Hn.
  destruct s as [e w]. split; [reflexivity|]. constructor; cbn.
  - unfold same_config. cbn. tauto.
  - unfold same_files. cbn. destruct (output_file w); cbn; tauto.
  - now rewrite <- app_assoc.
  - lia.
  - lia.
  - intros j Hj. apply list_lookup_alter_ne. congruence.
  - intros c Hc. rewrite list_lookup_alter_eq, Hc. cbn.
    eexists. split; [reflexivity|].
    unfold chunk_moved. cbn. rewrite orb_false_r. repeat split; lia.
Qed.

(** Bytes carried by the blocks of a body. *)
Definition body_bytes (body : list StreamEvent) : Z :=
  fold_right
    (fun ev acc => match ev with Block d => block_len d + acc | Call _ => acc end)
    0 body.

Lemma body_bytes_nonneg body : 0 <= body_bytes body.
Proof.
  induction body as [|[d|c] body IH]; simpl; try lia.
  pose proof (block_len_nonneg d). lia.
Qed.

Definition fin_result (fin : StreamEnd) : Outcome bool :=
  match fin with
  | EndOfBody => Return true
  | StreamRaises x => Raise x
  | StreamCut => Pending
  end.

(** The block loop only advances [downloaded]: by all the bytes of the
    body unless the stop flag makes it return [False] on the way. *)
Lemma stream_body_spec i fin : forall body pos s r s',
  stream_body i pos body fin s = (r, s') ->
  exists new,
    moved i s s' new false /\ requests new = [] /\ sleeps new = [] /\
    written new <= body_bytes body /\
    (r = Return false \/
     (written new = body_bytes body /\ r = fin_result fin)).
Proof.
  induction body as [|ev body IH]; intros pos s r s' H.
  - assert (r = fin_result fin /\ s' = s) as [-> ->]
      by (destruct fin; cbn in H; injection H as <- <-; easy).
    exists []. split; [apply moved_refl|]. cbn.
    split_and!; try reflexivity. right. easy.
  - pose proof (body_bytes_nonneg body) as Hb.
    destruct ev as [data|c]; cbn [stream_body] in H.
    + unfold bind at 1 in H. unfold get_engine in H. cbv beta iota in H.
      destruct (is_stopped (engine s)).
      * injection H as <- <-. exists []. split; [apply moved_refl|].
        pose proof (block_len_nonneg data). cbn. fold (body_bytes body).
        split_and!; try reflexivity; try lia; try (now left).
      * unfold bind in H.
        destruct (moved_write_block i pos data s) as (Hout & Hmv).
        unfold outcome, exec in Hout, Hmv.
        destruct (write_block i pos data s) as [r1 s1].
        cbn [fst snd] in Hout, Hmv. subst r1.
        destruct (IH _ _ _ _ H) as (new & Hmv2 & Hr & Hs & Hw & Hres).
        eexists. split.
        { change false with (false || false). eapply moved_trans; eauto. }
        rewrite requests_app, sleeps_app, written_app, Hr, Hs. cbn.
        fold (body_bytes body).
        split_and!; try reflexivity; try lia.
        destruct Hres as [->|[Hw' ->]]; [now left | right; split; [lia|easy]].
    + unfold bind in H.
      destruct (moved_control i c s) as (x & Hout & Hmv).
      unfold outcome, exec in Hout, Hmv.
      destruct (control c s) as [r1 s1]. cbn in Hout, Hmv. subst r1.
      destruct (IH _ _ _ _ H) as (new & Hmv2 & Hr & Hs & Hw & Hres).
      eexists. split.
      { change false with (false || false). eapply moved_trans; eauto. }
      rewrite requests_app, sleeps_app, written_app, Hr, Hs. cbn.
        fold (body_bytes body).
      split_and!; try reflexivity; try lia.
      destruct Hres as [->|[Hw' ->]]; [now left | right; split; [lia|easy]].
Qed.

(** Bytes an attempt's response hands to the block loop, and whether
    that response is accepted and ends normally. *)
Definition delivered (a : Attempt) : Z :=
  match reply a with
  | Response status body _ => if accepted status then body_bytes body else 0
  | _ => 0
  end.

Definition ends_body (a : Attempt) : bool :=
  match reply a with
  | Response status _ EndOfBody => accepted status
  | _ => false
  end.

Lemma delivered_nonneg a : 0 <= delivered a.
Proof.
  unfold delivered. destruct (reply a) as [| |st body fin]; try lia.
  destruct (accepted st); [apply body_bytes_nonneg | lia].
Qed.

(** Replay of a log from a chunk [c] whose [downloaded] is [d]: each
    request goes to [u] and carries the range header computed from the
    bytes downloaded up to that point. *)
Fixpoint requests_ok (caps : ServerCapabilities) (u : string)
  (c : ChunkInfo) (d : Z) (l : list Effect) : Prop :=
  match l with
  | [] => True
  | Request x r :: l' =>
      x = u /\ r = request_range caps (set_downloaded d c) /\
      requests_ok caps u c d l'
  | FileWrite _ n :: l' => requests_ok caps u c (d + n) l'
  | _ :: l' => requests_ok caps u c d l'
  end.

Lemma requests_ok_app caps u c l1 : forall d l2,
  requests_ok caps u c d (l1 ++ l2) <->
  requests_ok caps u c d l1 /\ requests_ok caps u c (d + written l1) l2.
Proof.
  induction l1 as [|x l1 IH]; intros d l2; simpl.
  - rewrite Z.add_0_r. tauto.
  - destruct x; simpl; rewrite ?IH, ?Z.add_assoc; tauto.
Qed.

Lemma requests_ok_none caps u c l : forall d,
  requests l = [] -> requests_ok caps u c d l.
Proof.
  induction l as [|x l IH]; intros d H; simpl; [exact I|].
  destruct x; simpl in H; try discriminate; auto.
Qed.

Lemma moved_complete i s :
  moved i s (exec (upd_chunk i (set_completed true)) s) [] true.
Proof.
  destruct s as [e w]. constructor; cbn.
  - unfold same_config. cbn. tauto.
  - apply same_files_refl.
  - now rewrite app_nil_r.
  - lia.
  - lia.
  - intros j Hj. apply list_lookup_alter_ne. congruence.
  - intros c Hc. rewrite list_lookup_alter_eq, Hc. cbn.
    eexists. split; [reflexivity|].
    unfold chunk_moved. cbn. rewrite orb_true_r. split_and!; try reflexivity; lia.
Qed.

Lemma set_downloaded_same c : set_downloaded (downloaded c) c = c.
Proof. now destruct c. Qed.

(** One attempt: at most one request, sent first and computed from the
    chunk as it stands; no sleep; the bytes written are those of the
    response unless the stop flag or a missing file cut the attempt
    short; the chunk is marked completed exactly when the attempt
    returns [True]. *)
Definition attempt_post (i : nat) (a : Attempt) (s : State) (c : ChunkInfo)
  (r : Outcome bool) (s' : State) : Prop :=
  exists new done,
    moved i s s' new done /\ sleeps new = [] /\
    (length (requests new) <= 1)%nat /\
    (forall caps, capabilities (engine s) = Some caps ->
       requests_ok caps (get_current_url (engine s)) c (downloaded c) new) /\
    written new <= delivered a /\
    (done = true -> r = Return true) /\
    (r = Return true ->
       done = true /\ ends_body a = true /\ written new = delivered a) /\
    (forall x, r = Raise x -> retryable x = true ->
       written new = delivered a).

Lemma attempt_post_early i a s c (r : Outcome bool) :
  r <> Return true ->
  (forall x, r = Raise x -> retryable x = false) ->
  attempt_post i a s c r s.
Proof.
  intros Hne Hnr. pose proof (delivered_nonneg a) as Hd.
  exists [], false. split; [apply moved_refl|]. cbn.
  split_and!; try reflexivity; try lia; try easy.
  intros x Hx Hrx. rewrite (Hnr x Hx) in Hrx. discriminate.
Qed.

Lemma attempt_body_spec i a s r s' c :
  chunks (engine s) !! i = Some c ->
  attempt_body i a s = (r, s') ->
  attempt_post i a s c r s'.
Proof.
  intros Hc H. pose proof (delivered_nonneg a) as Hd.
  unfold attempt_body, get_chunk, get_capabilities, get_world, bind,
    get_engine in H.
  cbv beta iota in H.
  destruct (is_stopped (engine s)).
  { injection H as <- <-. now apply attempt_post_early. }
  rewrite Hc in H. unfold ret at 1 in H. cbv beta iota in H.
  destruct (capabilities (engine s)) as [caps|] eqn:Hcaps.
  2:{ injection H as <- <-. apply attempt_post_early; [easy|].
      now intros x [= <-]. }
  unfold ret at 1 in H. cbv beta iota in H.
  destruct (session (engine s)) as [ses|] eqn:Hses; cbn [is_some] in H.
  2:{ injection H as <- <-. apply attempt_post_early; [easy|].
      now intros x [= <-]. }
  unfold ret at 1 in H. cbv beta iota in H.
  set (rq := Request (get_current_url (engine s)) (request_range caps c)) in H.
  pose proof (moved_emit i s rq eq_refl eq_refl) as Hrq.
  unfold exec in Hrq. destruct (emit rq s) as [r0 s0] eqn:Erq.
  unfold emit, upd_world in Erq. injection Erq as <- Es0.
  cbn [snd] in Hrq. cbv beta iota in H.
  destruct (controls (while_connecting a) s0) as [r1 s1] eqn:Ectl.
  destruct (controls_spec i _ _ _ _ Ectl) as (-> & nc & Hmc & Hqr & Hqs & Hqw).
  cbv beta iota in H.
  pose proof (moved_trans _ _ _ _ _ _ _ _ Hrq Hmc) as Hm1. cbn [orb] in Hm1.
  assert (forall caps', capabilities (engine s) = Some caps' ->
          requests_ok caps' (get_current_url (engine s)) c (downloaded c)
            ([rq] ++ nc)) as Hok1.
  { intros caps' Hcaps'. rewrite Hcaps in Hcaps'. injection Hcaps' as <-.
    cbn. rewrite set_downloaded_same.
    split_and!; try reflexivity. now apply requests_ok_none. }
  assert (sleeps ([rq] ++ nc) = []) as Hs1
    by (rewrite sleeps_app, Hqs; reflexivity).
  assert (length (requests ([rq] ++ nc)) <= 1)%nat as Hr1
    by (rewrite requests_app, Hqr; cbn; lia).
  assert (written ([rq] ++ nc) = 0) as Hw1
    by (rewrite written_app, Hqw; reflexivity).
  assert (forall r0 : Outcome bool, r0 <> Return true ->
          (forall x, r0 = Raise x -> retryable x = true -> delivered a = 0) ->
          attempt_post i a s c r0 s1) as Hmid.
  { intros r0 Hne Hnr. exists ([rq] ++ nc)%list, false.
    rewrite Hw1. split_and!; try assumption; try easy.
    intros x Hx Hrx. symmetry. eauto. }
  unfold attempt_post, delivered, ends_body in *.
  destruct (reply a) as [x| |st body fin].
  - injection H as <- <-. apply Hmid; easy.
  - injection H as <- <-. apply Hmid; easy.
  - destruct (accepted st) eqn:Hacc; cbn [negb] in H.
    2:{ injection H as <- <-. apply Hmid; easy. }
    cbv beta iota in H.
    destruct (output_file (world s1)); cbn [is_some negb] in H.
    2:{ injection H as <- <-. apply Hmid; [easy|]. now intros x [= <-]. }
    destruct (Z.ltb (start c + downloaded c) 0).
    { injection H as <- <-. apply Hmid; [easy|]. now intros x [= <-]. }
    clear Hmid.
    destruct (stream_body i (start c + downloaded c) body fin s1)
      as [r2 s2] eqn:Estr.
    destruct (stream_body_spec i _ _ _ _ _ _ Estr)
      as (nb & Hmb & Hbr & Hbs & Hbw & Hres).
    pose proof (moved_trans _ _ _ _ _ _ _ _ Hm1 Hmb) as Hm2.
    cbn [orb] in Hm2.
    assert (forall caps', capabilities (engine s) = Some caps' ->
            requests_ok caps' (get_current_url (engine s)) c (downloaded c)
              (([rq] ++ nc) ++ nb)) as Hok2.
    { intros caps' Hcaps'. apply requests_ok_app. split; [auto|].
      now apply requests_ok_none. }
    assert (sleeps (([rq] ++ nc) ++ nb) = []) as Hs2
      by (rewrite sleeps_app, Hs1, Hbs; reflexivity).
    assert (length (requests (([rq] ++ nc) ++ nb)) <= 1)%nat as Hr2
      by (rewrite requests_app, Hbr, app_nil_r; exact Hr1).
    assert (written (([rq] ++ nc) ++ nb) = written nb) as Hw2
      by (rewrite written_app, Hw1; lia).
    destruct r2 as [[|]|x|].
    + pose proof (moved_complete i s2) as Hm3. unfold exec in Hm3.
      destruct (upd_chunk i (set_completed true) s2) as [r3 s3] eqn:E3.
      unfold upd_chunk, upd_engine in E3. injection E3 as <- Es3.
      cbn [snd] in Hm3. cbv beta iota in H. injection H as <- <-.
      pose proof (moved_trans _ _ _ _ _ _ _ _ Hm2 Hm3) as Hm4.
      cbn [orb] in Hm4. rewrite app_nil_r in Hm4.
      destruct Hres as [Hres|[Hwb Hres]]; [discriminate|].
      exists (([rq] ++ nc) ++ nb)%list, true. rewrite Hw2.
      split_and!; try assumption; try easy; try lia.
      intros _. split_and!; try easy.
      destruct fin; cbn in Hres; congruence.
    + injection H as <- <-.
      exists (([rq] ++ nc) ++ nb)%list, false. rewrite Hw2.
      split_and!; try assumption; try easy.
    + injection H as <- <-.
      exists (([rq] ++ nc) ++ nb)%list, false. rewrite Hw2.
      split_and!; try assumption; try easy.
      intros y _ _. destruct Hres as [Hres|[Hwb _]]; [discriminate|exact Hwb].
    + injection H as <- <-.
      exists (([rq] ++ nc) ++ nb)%list, false. rewrite Hw2.
      split_and!; try assumption; try easy.
Qed.

(** The backoff sleeps of [n] failed attempts in a row, the first one
    being attempt number [attempt]. *)
Fixpoint backoffs (attempt : Z) (n : nat) : list Z :=
  match n with
  | O => []
  | S n' => wait_time attempt :: backoffs (attempt + 1) n'
  end.

(** [honours remaining script]: every accepted response carries no more
    than the bytes still missing from the chunk, and exactly those when
    its body ends normally. *)
Fixpoint honours (remaining : Z) (script : list Attempt) : Prop :=
  match script with
  | [] => True
  | a :: rest =>
      (if ends_body a then delivered a = remaining
       else delivered a <= remaining) /\
      honours (remaining - delivered a) rest
  end.

Lemma request_range_ext caps c c' d :
  start c' = start c -> end_ c' = end_ c ->
  request_range caps (set_downloaded d c') =
  request_range caps (set_downloaded d c).
Proof. intros Hs He. unfold request_range. cbn. now rewrite Hs, He. Qed.

Lemma requests_ok_ext caps u c c' l :
  start c' = start c -> end_ c' = end_ c ->
  forall d, requests_ok caps u c d l -> requests_ok caps u c' d l.
Proof.
  intros Hs He. induction l as [|x l IH]; intros d H; simpl; [exact I|].
  destruct x; simpl in H; auto.
  destruct H as (Hu & Hr & H). split_and!; auto.
  now rewrite (request_range_ext caps c c' d Hs He).
Qed.

Lemma get_current_url_same e e' :
  same_config e e' -> get_current_url e' = get_current_url e.
Proof.
  intros (Hu & _ & _ & _ & Hm & Hi & _). unfold get_current_url.
  now rewrite Hu, Hm, Hi.
Qed.

Lemma on_retry_spec i w m k a x s r s' :
  on_retry i w m k a x s = (r, s') ->
  r = Return tt /\
  exists nc,
    moved i s s'
      ([Status (MsgRetry w (k + 1) m x (wait_time k)); Sleep (wait_time k)]
         ++ nc) false /\
    quiet nc.
Proof.
  intros H. unfold on_retry, bind, _update_status, emit, upd_world,
    upd_chunk, upd_engine in H.
  cbv beta iota in H.
  match type of H with
  | controls _ ?s0 = _ =>
      assert (moved i s s0
                [Status (MsgRetry w (k + 1) m x (wait_time k));
                 Sleep (wait_time k)] false) as Hm0
  end.
  { destruct s as [e wd]. constructor; cbn.
    - unfold same_config. cbn. tauto.
    - unfold same_files. cbn. tauto.
    - now rewrite <- app_assoc.
    - lia.
    - lia.
    - intros j Hj. apply list_lookup_alter_ne. congruence.
    - intros c Hc. rewrite list_lookup_alter_eq, Hc. cbn.
      eexists. split; [reflexivity|].
      unfold chunk_moved. cbn. rewrite orb_false_r.
      split_and!; try reflexivity; lia. }
  destruct (controls_spec i _ _ _ _ H) as (-> & nc & Hmc & Hq).
  split; [reflexivity|]. exists nc. split; [|exact Hq].
  change false with (false || false). eapply moved_trans; eauto.
Qed.

Definition retry_post (i : nat) (todo : nat) (k : Z) (script : list Attempt)
  (s : State) (c : ChunkInfo) (r : Outcome bool) (s' : State) : Prop :=
  exists new done,
    moved i s s' new done /\
    (length (requests new) <= todo)%nat /\
    (length (sleeps new) <= todo)%nat /\
    sleeps new = backoffs k (length (sleeps new)) /\
    (forall caps, capabilities (engine s) = Some caps ->
       requests_ok caps (get_current_url (engine s)) c (downloaded c) new) /\
    (done = true -> r = Return true) /\
    (forall rem, 0 <= rem -> honours rem script ->
       written new <= rem /\ (done = true -> written new = rem)).

Lemma retry_post_idle i todo k script s c (r : Outcome bool) :
  r <> Return true -> retry_post i todo k script s c r s.
Proof.
  intros Hne. exists [], false. split; [apply moved_refl|]. cbn.
  split_and!; try reflexivity; try lia; try easy.
Qed.

Lemma retry_loop_spec i w m : forall todo k script s r s' c,
  chunks (engine s) !! i = Some c ->
  retry_loop i w m todo k script s = (r, s') ->
  retry_post i todo k script s c r s'.
Proof.
  induction todo as [|todo IH]; intros k script s r s' c Hc H.
  - cbn in H. injection H as <- <-. now apply retry_post_idle.
  - cbn [retry_loop] in H. destruct script as [|a rest].
    + unfold bind, get_engine in H. cbv beta iota in H.
      destruct (is_stopped (engine s)); injection H as <- <-;
        now apply retry_post_idle.
    + unfold try_except in H.
      destruct (attempt_body i a s) as [r1 s1] eqn:Ea.
      destruct (attempt_body_spec _ _ _ _ _ _ Hc Ea)
        as (na & da & Hma & Hsa & Hra & Hoka & Hwa & Hda & Hta & Hxa).
      assert (forall r0 : Outcome bool,
                (da = true -> r0 = Return true) ->
                (r0 = Return true -> da = true) ->
                (r0 = Return true ->
                 ends_body a = true /\ written na = delivered a) ->
                retry_post i (S todo) k (a :: rest) s c r0 s1) as Hstop.
      { intros r0 Hd1 Hd2 Ht. exists na, da. rewrite Hsa. cbn.
        split_and!; try assumption; try reflexivity; try lia.
        intros rem Hrem [Ha _]. split.
        - destruct (ends_body a); lia.
        - intros Hdone. destruct (Ht (Hd1 Hdone)) as [He Hw].
          rewrite He in Ha. lia. }
      destruct r1 as [b|x|].
      * injection H as <- <-. apply Hstop; [exact Hda| |].
        -- intros Hb. now destruct (Hta Hb).
        -- intros Hb. now destruct (Hta Hb) as (_ & ? & ?).
      * destruct (retryable x) eqn:Hx.
        2:{ injection H as <- <-. apply Hstop; [exact Hda|easy|easy]. }
        assert (da = false) as -> by
          (destruct da; [specialize (Hda eq_refl); discriminate|reflexivity]).
        unfold bind at 1 in H.
        destruct (on_retry i w m k a x s1) as [r2 s2] eqn:Er.
        destruct (on_retry_spec _ _ _ _ _ _ _ _ _ Er)
          as (-> & nc & Hmr & Hqr & Hqs & Hqw).
        pose proof (moved_trans _ _ _ _ _ _ _ _ Hma Hmr) as Hm2.
        cbn [orb] in Hm2.
        destruct (mv_chunk _ _ _ _ _ Hm2 c Hc) as (c2 & Hc2 & Hcm).
        destruct Hcm as (Hst & Hen & _ & Hdl & _ & _).
        destruct (IH _ _ _ _ _ _ Hc2 H)
          as (nr & dr & Hmrest & Hrr & Hsr & Hbr & Hokr & Hdr & Hhr).
        pose proof (moved_trans _ _ _ _ _ _ _ _ Hm2 Hmrest) as Hm3.
        cbn [orb] in Hm3.
        set (st := Status (MsgRetry w (k + 1) m x (wait_time k))) in *.
        set (sl := Sleep (wait_time k)) in *.
        assert (sleeps (na ++ [st; sl] ++ nc) = [wait_time k]) as Hs2
          by (rewrite !sleeps_app, Hsa, Hqs; reflexivity).
        assert (requests (na ++ [st; sl] ++ nc) = requests na) as Hr2
          by (rewrite !requests_app, Hqr; cbn; now rewrite app_nil_r).
        assert (written (na ++ [st; sl] ++ nc) = written na) as Hw2
          by (rewrite !written_app, Hqw; cbn; lia).
        exists ((na ++ [st; sl] ++ nc) ++ nr)%list, dr.
        rewrite sleeps_app, requests_app, written_app, Hs2, Hr2, Hw2.
        rewrite !length_app. cbn [length].
        split_and!; try assumption; try lia.
        -- cbn. now rewrite <- Hbr.
        -- intros caps Hcaps. apply requests_ok_app. split.
           ++ apply requests_ok_app. split; [auto|].
              apply requests_ok_none.
              rewrite requests_app, Hqr. reflexivity.
           ++ rewrite <- Hdl.
              apply (requests_ok_ext caps _ c2 c); [congruence..|].
              rewrite <- (get_current_url_same _ _ (mv_config _ _ _ _ _ Hm2)).
              apply Hokr.
              destruct (mv_config _ _ _ _ _ Hm2) as (_ & _ & _ & Hcp & _).
              congruence.
        -- intros rem Hrem [Ha Hrest].
           specialize (Hxa x eq_refl Hx).
           assert (delivered a <= rem) as Hle
             by (destruct (ends_body a); lia).
           destruct (Hhr (rem - delivered a)) as [Hle2 Heq2]; [lia|exact Hrest|].
           split; [lia|]. intros Hdone. specialize (Heq2 Hdone). lia.
      * injection H as <- <-. apply Hstop; [exact Hda|easy|easy].
Qed.

Lemma requests_ok_split caps u c d new pre x r post :
  requests_ok caps u c d new ->
  new = (pre ++ Request x r :: post)%list ->
  x = u /\ r = request_range caps (set_downloaded (d + written pre) c).
Proof.
  intros H ->. apply requests_ok_app in H. destruct H as [_ H].
  simpl in H. tauto.
Qed.

Lemma backoffs_first n :
  (n <= 5)%nat -> backoffs 0 n = map wait_time (range (Z.of_nat n)).
Proof.
  intros Hn. do 6 (destruct n as [|n]; [reflexivity|]). lia.
Qed.

(** ** Chunk invariants during a transfer *)

Definition plain_attempt (status : Z) (body : list StreamEvent)
  (fin : StreamEnd) : Attempt :=
  {| while_connecting := []; reply := Response status body fin;
     while_backing_off := [] |}.

(** A server without [Accept-Ranges] nor [Content-Length]: the planner
    yields the sentinel chunk [[0, -1]], which worker 0 claims. *)
Definition sentinel_claimed : State :=
  exec (initialize true (ProbeHeaders []) ;; prepare_chunks ;;
        get_next_chunk 0)
       (initial "http://t/f" 8 (set_output_file (Some []) empty_world)).

(** C4, as stated, fails on the sentinel chunk: a 200 response with a
    five-byte body leaves it completed with [downloaded = 5], more than
    [end - start + 1 = 0]. *)
Lemma sentinel_chunk_exceeds_its_length :
  let s' := exec (download_chunk_with_retry 0 0 5
                    [plain_attempt 200 [Block five_bytes] EndOfBody])
                 sentinel_claimed in
  exists c c',
    chunks (engine sentinel_claimed) !! 0%nat = Some c /\
    chunks (engine s') !! 0%nat = Some c' /\
    start c = 0 /\ end_ c = -1 /\ downloaded c = 0 /\
    completed c' = true /\
    ~ (downloaded c' <= end_ c' - start c' + 1).
Proof.
  exists (set_thread_id (Some 0) (new_chunk 0 (-1))),
    (set_completed true
       (set_downloaded 5 (set_thread_id (Some 0) (new_chunk 0 (-1))))).
  split; [vm_compute; reflexivity|].
  split; [vm_compute; reflexivity|]. cbn. split_and!; try reflexivity. lia.
Qed.

(** C4, amended.  For a chunk in the vector and any script of the
    outside, cut wherever one likes, the transfer keeps [start] and
    [end], never decreases [downloaded] and never reverts [completed].
    When moreover every accepted response carries no more than the bytes
    still missing from the chunk, and exactly those when its body ends
    normally ([honours]), [downloaded] stays within the length of the
    chunk and a completed chunk is fully downloaded. *)
Theorem chunk_invariants_during_transfer
  (i : nat) (w : Z) (script : list Attempt) (s : State) (c : ChunkInfo) :
  chunks (engine s) !! i = Some c ->
  let s' := exec (download_chunk_with_retry i w 5 script) s in
  exists c',
    chunks (engine s') !! i = Some c' /\
    start c' = start c /\ end_ c' = end_ c /\
    downloaded c <= downloaded c' /\
    (completed c = true -> completed c' = true) /\
    (downloaded c <= chunk_len c ->
     honours (chunk_len c - downloaded c) script ->
     downloaded c' <= chunk_len c' /\
     ((completed c = true -> downloaded c = chunk_len c) ->
      completed c' = true -> downloaded c' = chunk_len c')).
Proof.
  intros Hc s'. subst s'. unfold exec, download_chunk_with_retry.
  destruct (retry_loop i w 5 (Z.to_nat 5) 0 script s) as [r s'] eqn:E.
  destruct (retry_loop_spec _ _ _ _ _ _ _ _ _ _ Hc E)
    as (new & done & Hm & _ & _ & _ & _ & _ & Hh).
  destruct (mv_chunk _ _ _ _ _ Hm c Hc) as (c' & Hc' & Hcm).
  destruct Hcm as (Hst & Hen & _ & Hdl & _ & Hcp).
  pose proof (mv_nonneg _ _ _ _ _ Hm) as Hnn.
  exists c'. cbn [snd]. unfold chunk_len in *. rewrite Hst, Hen.
  split_and!; try easy; try lia.
  - intros Hdone. rewrite Hcp, Hdone. reflexivity.
  - intros Hle Hhon.
    assert (0 <= end_ c - start c + 1 - downloaded c) as Hrem by lia.
    destruct (Hh _ Hrem Hhon) as [Hw Hex].
    split; [lia|]. intros Hinit Hdone. rewrite Hcp in Hdone.
    destruct (completed c).
    + specialize (Hinit eq_refl). lia.
    + cbn in Hdone. specialize (Hex Hdone). lia.
Qed.

(** A server announcing five bytes without range support; worker 0 has
    claimed the single chunk [[0, 4]] of the pre-allocated file. *)
Definition five_claimed : State :=
  exec (initialize true (ProbeHeaders [("Content-Length", "5")]) ;;
        prepare_chunks ;; preallocate ;; get_next_chunk 0)
       (initial "http://t/f" 8 empty_world).

Lemma chunk_invariants_during_transfer_witness :
  exists c',
    chunks (engine (exec (download_chunk_with_retry 0 0 5
                            [plain_attempt 503 [] EndOfBody;
                             plain_attempt 200 [Block five_bytes] EndOfBody])
                         five_claimed)) !! 0%nat = Some c' /\
    downloaded c' <= chunk_len c'.
Proof.
  destruct (chunk_invariants_during_transfer 0 0
              [plain_attempt 503 [] EndOfBody;
               plain_attempt 200 [Block five_bytes] EndOfBody]
              five_claimed (set_thread_id (Some 0) (new_chunk 0 4)) eq_refl)
    as (c' & Hc' & _ & _ & _ & _ & Hb).
  exists c'. split; [exact Hc'|].
  apply Hb; [vm_compute; discriminate|].
  vm_compute. repeat split; discriminate.
Defined.

(** ** The retry loop *)

(** A handled failure of an attempt sends the loop into its next
    iteration, after the [except] block. *)
Lemma retry_step i w m todo k a rest s x :
  outcome (attempt_body i a) s = Raise x ->
  retryable x = true ->
  retry_loop i w m (S todo) k (a :: rest) s =
  retry_loop i w m todo (k + 1) rest
    (exec (on_retry i w m k a x) (exec (attempt_body i a) s)).
Proof.
  intros Hr Hx. cbn [retry_loop]. unfold try_except, outcome, exec in *.
  destruct (attempt_body i a s) as [r1 s1]. cbn [fst snd] in *. subst r1.
  rewrite Hx. unfold bind.
  destruct (on_retry i w m k a x s1) as [r2 s2] eqn:Er.
  destruct (on_retry_spec _ _ _ _ _ _ _ _ _ Er) as (-> & _).
  reflexivity.
Qed.

(** A status other than 200 and 206 makes the attempt raise
    [ClientResponseError]. *)
Lemma bad_status_raises i a s c st body fin :
  is_stopped (engine s) = false ->
  chunks (engine s) !! i = Some c ->
  capabilities (engine s) <> None ->
  session (engine s) <> None ->
  reply a = Response st body fin ->
  accepted st = false ->
  outcome (attempt_body i a) s = Raise ClientError.
Proof.
  intros Hstop Hc Hcaps Hses Hrep Hacc.
  unfold outcome, attempt_body, get_chunk, get_capabilities, bind,
    get_engine.
  cbv beta iota. rewrite Hstop, Hc. unfold ret at 1. cbv beta iota.
  destruct (capabilities (engine s)) as [caps|]; [|congruence].
  unfold ret at 1. cbv beta iota.
  destruct (session (engine s)) as [ses|]; [|congruence].
  cbn [is_some]. unfold ret at 1. cbv beta iota.
  unfold emit at 1, upd_world at 1. cbv beta iota.
  match goal with
  | |- context [controls ?cs ?s0] =>
      destruct (controls cs s0) as [r1 s1] eqn:Ectl
  end.
  destruct (controls_spec i _ _ _ _ Ectl) as (-> & _).
  cbv beta iota. rewrite Hrep, Hacc. reflexivity.
Qed.

(** ** Attempts that no [stop] disturbs *)

Definition is_stop (c : ControlCall) : bool :=
  match c with CallStop => true | _ => false end.

(** No [stop] among the calls. *)
Definition calm (cs : list ControlCall) : bool :=
  forallb (fun c => negb (is_stop c)) cs.

Definition calm_body (body : list StreamEvent) : bool :=
  forallb (fun ev => match ev with Call c => negb (is_stop c) | Block _ => true end)
          body.

(** What calls other than [stop] leave alone. *)
Definition undisturbed (s s' : State) : Prop :=
  is_stopped (engine s') = is_stopped (engine s) /\
  chunks (engine s') = chunks (engine s) /\
  downloaded_size (engine s') = downloaded_size (engine s) /\
  output_file (world s') = output_file (world s).

Lemma control_calm c s :
  is_stop c = false ->
  control c s = (Return tt, exec (control c) s) /\
  undisturbed s (exec (control c) s).
Proof.
  intros H. destruct c, s as [e w]; try discriminate; cbn;
    unfold undisturbed; cbn; easy.
Qed.

Lemma controls_calm cs : forall s,
  calm cs = true ->
  controls cs s = (Return tt, exec (controls cs) s) /\
  undisturbed s (exec (controls cs) s).
Proof.
  induction cs as [|c cs IH]; intros s H.
  - cbn. unfold undisturbed. easy.
  - cbn in H. apply andb_prop in H as [Hc Hcs].
    apply negb_true_iff in Hc.
    destruct (control_calm c s Hc) as [E1 U1].
    destruct (IH (exec (control c) s) Hcs) as [E2 U2].
    assert (controls (c :: cs) s =
            (Return tt, exec (controls cs) (exec (control c) s))) as E
      by (cbn [controls]; unfold bind; rewrite E1; exact E2).
    assert (exec (controls (c :: cs)) s =
            exec (controls cs) (exec (control c) s)) as Hex
      by (unfold exec at 1; now rewrite E).
    rewrite Hex. split; [exact E|].
    unfold undisturbed in *. intuition congruence.
Qed.

Lemma stream_body_block i pos d rest fin s :
  is_stopped (engine s) = false ->
  stream_body i pos (Block d :: rest) fin s =
  stream_body i (pos + block_len d) rest fin (exec (write_block i pos d) s).
Proof.
  intros Hs. cbn [stream_body]. unfold bind at 1, get_engine.
  cbv beta iota. rewrite Hs. unfold bind, exec.
  destruct (moved_write_block i pos d s) as [Hout _]. unfold outcome in Hout.
  destruct (write_block i pos d s) as [r1 s1]. cbn in Hout. now subst r1.
Qed.

Lemma write_block_engine i pos d s :
  let s1 := exec (write_block i pos d) s in
  downloaded_size (engine s1) = downloaded_size (engine s) + block_len d /\
  is_paused (engine s1) = is_paused (engine s) /\
  is_stopped (engine s1) = is_stopped (engine s).
Proof. destruct s as [e w]. cbn. easy. Qed.

Lemma stream_body_call i pos c rest fin s :
  stream_body i pos (Call c :: rest) fin s =
  stream_body i pos rest fin (exec (control c) s).
Proof.
  cbn [stream_body]. unfold bind, exec.
  destruct (moved_control i c s) as (x & Hout & _). unfold outcome in Hout.
  destruct (control c s) as [r1 s1]. cbn in Hout. now subst r1.
Qed.

(** The block loop under a clear stop flag that no call sets: it runs to
    the end of the stream, whatever that end is. *)
Lemma stream_body_calm i fin : forall body pos s,
  is_stopped (engine s) = false ->
  calm_body body = true ->
  outcome (stream_body i pos body fin) s = fin_result fin /\
  is_stopped (engine (exec (stream_body i pos body fin) s)) = false.
Proof.
  induction body as [|ev body IH]; intros pos s Hs Hb.
  - destruct fin; cbn; easy.
  - cbn in Hb. apply andb_prop in Hb as [Hev Hb]. destruct ev as [d|cl].
    + unfold outcome, exec. rewrite (stream_body_block _ _ _ _ _ _ Hs).
      apply IH; [|exact Hb].
      destruct (write_block_engine i pos d s) as (_ & _ & ->). exact Hs.
    + apply negb_true_iff in Hev. unfold outcome, exec.
      rewrite stream_body_call.
      destruct (control_calm cl s Hev) as [_ (S1 & _)].
      apply IH; [congruence | exact Hb].
Qed.

(** How an attempt ends when no [stop] comes in its way: with the
    exception of the request, with [ClientResponseError] on a status
    other than 200 and 206, else as the stream of the body ends. *)
Definition attempt_result (a : Attempt) : Outcome bool :=
  match reply a with
  | GetRaises x => Raise x
  | GetPending => Pending
  | Response status _ fin =>
      if accepted status then fin_result fin else Raise ClientError
  end.

(** No [stop] while the request is awaited nor while the body of an
    accepted response is read. *)
Definition calm_transfer (a : Attempt) : bool :=
  calm (while_connecting a) &&
  match reply a with
  | Response status body _ => negb (accepted status) || calm_body body
  | _ => true
  end.

(** The attempt ends with an exception the retry loop handles. *)
Definition retried (a : Attempt) : bool :=
  match attempt_result a with
  | Raise x => retryable x
  | _ => false
  end.

(** An attempt that fails and is retried, no [stop] coming before the
    next attempt. *)
Definition failing (a : Attempt) : bool :=
  calm_transfer a && calm (while_backing_off a) && retried a.

Lemma attempt_body_calm i a s c caps :
  is_stopped (engine s) = false ->
  chunks (engine s) !! i = Some c ->
  capabilities (engine s) = Some caps ->
  session (engine s) <> None ->
  output_file (world s) <> None ->
  0 <= start c + downloaded c ->
  calm_transfer a = true ->
  let s' := exec (attempt_body i a) s in
  outcome (attempt_body i a) s = attempt_result a /\
  is_stopped (engine s') = false /\
  exists more,
    moved i s s'
      (Request (get_current_url (engine s)) (request_range caps c) :: more)
      (ends_body a) /\
    requests more = [] /\ sleeps more = [] /\ written more = delivered a.
Proof.
  intros Hs Hc Hcaps Hses Hf Hpos Hcalm. cbn zeta.
  apply andb_prop in Hcalm as [Hcalm Hbody].
  set (rq := Request (get_current_url (engine s)) (request_range caps c)).
  pose proof (moved_emit i s rq eq_refl eq_refl) as Hm0.
  set (s0 := exec (emit rq) s) in *.
  destruct (controls_calm (while_connecting a) s0 Hcalm)
    as [E1 (S1 & C1 & D1 & O1)].
  destruct (controls_spec i _ _ _ _ E1) as (_ & n1 & Hm1 & Hq1r & Hq1s & Hq1w).
  set (s1 := exec (controls (while_connecting a)) s0) in *.
  pose proof (moved_trans _ _ _ _ _ _ _ _ Hm0 Hm1) as Hm01.
  cbn [orb app] in Hm01.
  assert (is_stopped (engine s1) = false) as Hs1
    by (rewrite S1; destruct s; exact Hs).
  assert (is_some (output_file (world s1)) = true) as Hf1.
  { rewrite O1. destruct s as [e0 w0]. cbn in *.
    now destruct (output_file w0). }
  assert (attempt_body i a s =
          (match reply a with
           | GetRaises x => raise x
           | GetPending => pending
           | Response status body fin =>
               if negb (accepted status) then raise ClientError
               else
                 ok <- stream_body i (start c + downloaded c) body fin ;;
                 if ok then upd_chunk i (set_completed true) ;; ret true
                 else ret false
           end) s1) as Ea.
  { unfold attempt_body, get_chunk, get_capabilities, get_world, bind,
      get_engine.
    cbv beta iota. rewrite Hs, Hc. unfold ret at 1. cbv beta iota.
    rewrite Hcaps. unfold ret at 1. cbv beta iota.
    destruct (session (engine s)) as [ses|]; [|congruence].
    cbn [is_some]. unfold ret at 1. cbv beta iota.
    change (emit (Request (get_current_url (engine s))
                          (request_range caps c)) s)
      with (Return tt, s0).
    cbv beta iota. rewrite E1. cbv beta iota.
    destruct (reply a) as [x| |st body fin]; try reflexivity.
    destruct (accepted st); cbn [negb]; [|reflexivity].
    rewrite Hf1. cbn [negb].
    destruct (Z.ltb_spec (start c + downloaded c) 0) as [Hlt|_]; [lia|].
    reflexivity. }
  unfold outcome, exec. rewrite Ea. clear Ea.
  unfold attempt_result, ends_body, delivered, calm_transfer in *.
  destruct (reply a) as [x| |st body fin].
  1,2: cbn; split_and!; try easy; exists n1; split_and!; easy.
  destruct (accepted st) eqn:Hacc; cbn [negb orb] in *.
  2: { cbn. split_and!; try easy. exists n1.
       replace (match fin with EndOfBody => false | _ => false end)
         with false by now destruct fin.
       split_and!; easy. }
  unfold bind.
  destruct (stream_body_calm i fin body (start c + downloaded c) s1 Hs1 Hbody)
    as [R2 S2].
  unfold outcome, exec in R2, S2.
  destruct (stream_body i (start c + downloaded c) body fin s1)
    as [r2 s2] eqn:E2.
  cbn [fst snd] in R2, S2. subst r2.
  destruct (stream_body_spec _ _ _ _ _ _ _ E2)
    as (n2 & Hm2 & Hr2 & Hsl2 & _ & Hres).
  assert (written n2 = body_bytes body) as Hw2
    by (destruct Hres as [Hres|[Hres _]];
        [destruct fin; discriminate | exact Hres]).
  pose proof (moved_trans _ _ _ _ _ _ _ _ Hm01 Hm2) as Hm012.
  cbn [orb app] in Hm012.
  assert (requests (n1 ++ n2) = [] /\ sleeps (n1 ++ n2) = [] /\
          written (n1 ++ n2) = body_bytes body) as Hq.
  { rewrite requests_app, sleeps_app, written_app, Hq1r, Hq1s, Hq1w, Hr2, Hsl2.
    split_and!; try reflexivity. lia. }
  destruct fin as [|x|]; cbn [fin_result].
  - pose proof (moved_complete i s2) as Hm3.
    pose proof (moved_trans _ _ _ _ _ _ _ _ Hm012 Hm3) as Hm4.
    cbn [orb] in Hm4. rewrite app_nil_r in Hm4.
    unfold upd_chunk, upd_engine, ret, exec in *. cbn [fst snd] in *.
    split_and!; try easy. exists (n1 ++ n2)%list. split; [exact Hm4|exact Hq].
  - cbn [fst snd]. split_and!; try easy.
    exists (n1 ++ n2)%list. split; [exact Hm012|exact Hq].
  - cbn [fst snd]. split_and!; try easy.
    exists (n1 ++ n2)%list. split; [exact Hm012|exact Hq].
Qed.

Lemma on_retry_calm i w m k a x s :
  calm (while_backing_off a) = true ->
  is_stopped (engine (exec (on_retry i w m k a x) s)) = is_stopped (engine s).
Proof.
  intros H. unfold exec, on_retry, bind, _update_status, emit, upd_world,
    upd_chunk, upd_engine.
  cbv beta iota.
  match goal with
  | |- context [controls ?cs ?s0] =>
      destruct (controls_calm cs s0 H) as [_ (S1 & _)]
  end.
  unfold exec in S1. rewrite S1. now destruct s.
Qed.

(** What attempts made one after the other ask for, on a chunk [c] of
    which [d] bytes are downloaded before the first: each asks the url
    [u] for [[start + downloaded, end]], with the bytes the attempts
    before it delivered counted in [downloaded], and with a [Range]
    header exactly when range is supported and that interval is not
    empty. *)
Fixpoint attempt_requests (u : string) (caps : ServerCapabilities)
  (c : ChunkInfo) (d : Z) (l : list Attempt)
  : list (string * option (Z * Z)) :=
  match l with
  | [] => []
  | a :: l' =>
      let from := start c + d in
      (u, if supports_range caps && (from <=? end_ c)%Z
          then Some (from, end_ c) else None)
        :: attempt_requests u caps c (d + delivered a) l'
  end.

Definition sum_delivered (l : list Attempt) : Z :=
  fold_right (fun a acc => delivered a + acc) 0 l.

Lemma sum_delivered_nonneg l : 0 <= sum_delivered l.
Proof.
  induction l as [|a l IH]; cbn; [lia|].
  pose proof (delivered_nonneg a). unfold sum_delivered in IH. lia.
Qed.

Lemma attempt_requests_ext u caps c c' l :
  start c' = start c -> end_ c' = end_ c ->
  forall d, attempt_requests u caps c' d l = attempt_requests u caps c d l.
Proof.
  intros Hs He. induction l as [|a l IH]; intros d; cbn; [reflexivity|].
  now rewrite Hs, He, IH.
Qed.

(** A failing attempt, from the test of the stop flag to the end of the
    backoff: one request, one sleep, and the loop is at its next
    iteration. *)
Lemma failing_step i w m todo k a rest s c caps :
  is_stopped (engine s) = false ->
  chunks (engine s) !! i = Some c ->
  capabilities (engine s) = Some caps ->
  session (engine s) <> None ->
  output_file (world s) <> None ->
  0 <= start c + downloaded c ->
  failing a = true ->
  exists s2 new,
    retry_loop i w m (S todo) k (a :: rest) s =
      retry_loop i w m todo (k + 1) rest s2 /\
    moved i s s2 new false /\
    requests new = [(get_current_url (engine s), request_range caps c)] /\
    sleeps new = [wait_time k] /\
    written new = delivered a /\
    is_stopped (engine s2) = false.
Proof.
  intros Hs Hc Hcaps Hses Hf Hpos Hfail.
  unfold failing in Hfail. apply andb_prop in Hfail as [Hfail Hret].
  apply andb_prop in Hfail as [Hcalm Hback].
  destruct (attempt_body_calm i a s c caps Hs Hc Hcaps Hses Hf Hpos Hcalm)
    as (Hout & Hs1 & more & Hm1 & Hr1 & Hsl1 & Hw1).
  unfold retried in Hret.
  destruct (attempt_result a) as [b|x|] eqn:Hres; try discriminate.
  assert (ends_body a = false) as He.
  { unfold attempt_result, ends_body in *.
    destruct (reply a) as [| |st body fin]; try reflexivity.
    destruct (accepted st); [|now destruct fin].
    destruct fin; try reflexivity; discriminate. }
  rewrite He in Hm1.
  pose proof (retry_step i w m todo k a rest s x Hout Hret) as Hstep.
  pose proof (on_retry_calm i w m k a x (exec (attempt_body i a) s) Hback)
    as Hs2.
  set (s1 := exec (attempt_body i a) s) in *.
  unfold exec at 1 in Hstep. unfold exec at 1 in Hs2.
  destruct (on_retry i w m k a x s1) as [r2 s2] eqn:Er.
  destruct (on_retry_spec _ _ _ _ _ _ _ _ _ Er)
    as (-> & nc & Hm2 & Hqr & Hqs & Hqw).
  cbn [snd] in Hstep, Hs2.
  pose proof (moved_trans _ _ _ _ _ _ _ _ Hm1 Hm2) as Hm. cbn [orb] in Hm.
  set (rq := Request (get_current_url (engine s)) (request_range caps c)) in *.
  set (bk := [Status (MsgRetry w (k + 1) m x (wait_time k));
              Sleep (wait_time k)]) in *.
  assert (requests (rq :: more) = [(get_current_url (engine s),
                                    request_range caps c)] /\
          sleeps (rq :: more) = [] /\ written (rq :: more) = delivered a)
    as (Ra & Sa & Wa).
  { change (rq :: more) with ([rq] ++ more)%list.
    rewrite requests_app, sleeps_app, written_app, Hr1, Hsl1, Hw1.
    split_and!; reflexivity. }
  assert (requests (bk ++ nc) = [] /\ sleeps (bk ++ nc) = [wait_time k] /\
          written (bk ++ nc) = 0) as (Rb & Sb & Wb).
  { rewrite requests_app, sleeps_app, written_app, Hqr, Hqs, Hqw.
    split_and!; reflexivity. }
  exists s2, ((rq :: more) ++ bk ++ nc)%list.
  rewrite requests_app, sleeps_app, written_app, Ra, Sa, Wa, Rb, Sb, Wb.
  split_and!; try assumption; try reflexivity; try lia. congruence.
Qed.

(** Failing attempts in a row: as many requests and sleeps as
    attempts. *)
Lemma failing_attempts_run i w m : forall fails todo k rest s c caps,
  is_stopped (engine s) = false ->
  chunks (engine s) !! i = Some c ->
  capabilities (engine s) = Some caps ->
  session (engine s) <> None ->
  output_file (world s) <> None ->
  0 <= start c + downloaded c ->
  forallb failing fails = true ->
  (length fails <= todo)%nat ->
  exists s' new,
    retry_loop i w m todo k (fails ++ rest) s =
      retry_loop i w m (todo - length fails) (k + Z.of_nat (length fails))
        rest s' /\
    moved i s s' new false /\
    requests new =
      attempt_requests (get_current_url (engine s)) caps c (downloaded c)
        fails /\
    sleeps new = backoffs k (length fails) /\
    written new = sum_delivered fails /\
    is_stopped (engine s') = false.
Proof.
  induction fails as [|a fails IH];
    intros todo k rest s c caps Hs Hc Hcaps Hses Hf Hpos Hfails Hlen.
  - exists s, []. cbn. rewrite Nat.sub_0_r, Z.add_0_r.
    split_and!; try reflexivity; try assumption. apply moved_refl.
  - cbn in Hfails. apply andb_prop in Hfails as [Ha Hfails].
    destruct todo as [|todo]; [cbn in Hlen; lia|].
    destruct (failing_step i w m todo k a (fails ++ rest) s c caps
                Hs Hc Hcaps Hses Hf Hpos Ha)
      as (s2 & n1 & E1 & Hm1 & Hr1 & Hsl1 & Hw1 & Hs2).
    destruct (mv_chunk _ _ _ _ _ Hm1 c Hc) as (c2 & Hc2 & Hcm).
    destruct Hcm as (Hst & Hen & _ & Hdl & _ & _).
    destruct (mv_config _ _ _ _ _ Hm1) as (_ & _ & _ & Hcp & _ & _ & Hse).
    destruct (mv_files _ _ _ _ _ Hm1) as (_ & _ & _ & Hof).
    pose proof (delivered_nonneg a) as Hd.
    destruct (IH todo (k + 1) rest s2 c2 caps Hs2 Hc2)
      as (s' & n2 & E2 & Hm2 & Hr2 & Hsl2 & Hw2 & Hs');
      try congruence; try lia.
    { destruct (output_file (world s2)), (output_file (world s));
        cbn in Hof; congruence. }
    { cbn in Hlen. lia. }
    pose proof (moved_trans _ _ _ _ _ _ _ _ Hm1 Hm2) as Hm. cbn [orb] in Hm.
    exists s', (n1 ++ n2)%list.
    rewrite requests_app, sleeps_app, written_app, Hr1, Hsl1, Hw1, Hr2, Hsl2,
      Hw2.
    rewrite (get_current_url_same _ _ (mv_config _ _ _ _ _ Hm1)).
    rewrite (attempt_requests_ext _ caps c c2 fails Hst Hen), Hdl, Hw1.
    split_and!; try reflexivity; try assumption.
    rewrite <- app_comm_cons, E1, E2. cbn [length Nat.sub].
    f_equal. lia.
Qed.

Lemma backoffs_length n : forall k, length (backoffs k n) = n.
Proof. induction n as [|n IH]; intros k; cbn; [reflexivity|]. now rewrite IH. Qed.

Lemma sum_delivered_app l1 l2 :
  sum_delivered (l1 ++ l2) = sum_delivered l1 + sum_delivered l2.
Proof.
  unfold sum_delivered. induction l1 as [|a l1 IH]; cbn; [reflexivity|].
  rewrite IH. lia.
Qed.

Lemma attempt_requests_app u caps c l1 : forall d l2,
  attempt_requests u caps c d (l1 ++ l2) =
  (attempt_requests u caps c d l1 ++
   attempt_requests u caps c (d + sum_delivered l1) l2)%list.
Proof.
  induction l1 as [|a l1 IH]; intros d l2; cbn.
  - now rewrite Z.add_0_r.
  - rewrite IH. fold (sum_delivered l1). now rewrite Z.add_assoc.
Qed.

(** An attempt that ends otherwise than with a handled exception ends
    the loop. *)
Lemma last_attempt i w m todo k a rest s :
  (forall x, outcome (attempt_body i a) s = Raise x -> retryable x = false) ->
  retry_loop i w m (S todo) k (a :: rest) s = attempt_body i a s.
Proof.
  intros H. cbn [retry_loop]. unfold try_except, outcome in *.
  destruct (attempt_body i a s) as [[b|x|] s1]; cbn [fst] in H;
    try reflexivity.
  now rewrite (H x eq_refl).
Qed.

(** C7.  Part 1, on the log of a whole run of the retry loop from a
    chunk [c]: at most 5 requests; each request goes to the current url
    with the range [[start + downloaded, end]] computed from the bytes
    written so far, the header being present exactly when range is
    supported and the interval is non-empty; the sleeps are
    [min(2^attempt, 30)] for attempt 0, 1, ..., and [retries] has grown
    by their number.  Part 2: when an attempt raises a client or timeout
    error, the loop increments [retries], logs the retry, sleeps
    [min(2^attempt, 30)] seconds and goes on with the next attempt from
    the chunk as the failed attempt left it.  Part 3: a status other
    than 200 and 206 is such an error.  Part 4, on
    [download_chunk_with_retry] started with the stop flag clear, an
    open destination and no [stop] on the way: [k] attempts that fail
    with such an error, 5 at most, make exactly [k] requests, the one of
    each attempt asking for [[start + downloaded, end]] with the bytes
    delivered before it counted, and exactly [k] sleeps of
    [min(2^attempt, 30)]; [retries] has grown by [k], and the loop is at
    its iteration [k], which for [k = 5] is its end: it returns [False]
    and whatever the script still holds is not asked for.  Part 5: when
    fewer than 5 such attempts are followed by an attempt that ends
    otherwise, that attempt makes one more request, from the position
    reached, and the transfer ends as it does; the chunk is completed
    exactly when that is the normal end of an accepted response. *)
Theorem retry_loop_attempts
  (i : nat) (w : Z) (script : list Attempt) (s : State) (c : ChunkInfo)
  (caps : ServerCapabilities) :
  chunks (engine s) !! i = Some c ->
  capabilities (engine s) = Some caps ->
  let s' := exec (download_chunk_with_retry i w 5 script) s in
  (exists new c' n,
     effects (world s') = (effects (world s) ++ new)%list /\
     chunks (engine s') !! i = Some c' /\
     (length (requests new) <= 5)%nat /\
     (forall pre u r post,
        new = (pre ++ Request u r :: post)%list ->
        let from := start c + (downloaded c + written pre) in
        u = get_current_url (engine s) /\
        r = if supports_range caps && (from <=? end_ c)%Z
            then Some (from, end_ c) else None) /\
     (n <= 5)%nat /\
     sleeps new =
       map (fun attempt => Z.min (2 ^ attempt) 30) (range (Z.of_nat n)) /\
     retries c' = retries c + Z.of_nat n /\
     downloaded c' = downloaded c + written new) /\
  (forall todo attempt a rest s0 x,
     outcome (attempt_body i a) s0 = Raise x ->
     x = ClientError \/ x = TimeoutError ->
     let s1 := exec (attempt_body i a) s0 in
     let s2 := exec (on_retry i w 5 attempt a x) s1 in
     retry_loop i w 5 (S todo) attempt (a :: rest) s0 =
       retry_loop i w 5 todo (attempt + 1) rest s2 /\
     forall c1, chunks (engine s1) !! i = Some c1 ->
     exists c2 calls,
       chunks (engine s2) !! i = Some c2 /\
       retries c2 = retries c1 + 1 /\
       downloaded c2 = downloaded c1 /\
       effects (world s2) =
         (effects (world s1) ++
            [Status (MsgRetry w (attempt + 1) 5 x (Z.min (2 ^ attempt) 30));
             Sleep (Z.min (2 ^ attempt) 30)] ++ calls)%list /\
       sleeps calls = [] /\ requests calls = []) /\
  (forall a st body fin s0 c0,
     is_stopped (engine s0) = false ->
     chunks (engine s0) !! i = Some c0 ->
     capabilities (engine s0) <> None ->
     session (engine s0) <> None ->
     reply a = Response st body fin ->
     st <> 200 -> st <> 206 ->
     outcome (attempt_body i a) s0 = Raise ClientError) /\
  (forall fails rest,
     is_stopped (engine s) = false ->
     session (engine s) <> None ->
     output_file (world s) <> None ->
     0 <= start c + downloaded c ->
     forallb failing fails = true ->
     (length fails <= 5)%nat ->
     let k := length fails in
     exists sk new ck,
       download_chunk_with_retry i w 5 (fails ++ rest) s =
         retry_loop i w 5 (5 - k) (Z.of_nat k) rest sk /\
       (k = 5%nat ->
        download_chunk_with_retry i w 5 (fails ++ rest) s =
          (Return false, sk)) /\
       is_stopped (engine sk) = false /\
       effects (world sk) = (effects (world s) ++ new)%list /\
       requests new =
         attempt_requests (get_current_url (engine s)) caps c (downloaded c)
           fails /\
       length (requests new) = k /\
       sleeps new =
         map (fun attempt => Z.min (2 ^ attempt) 30) (range (Z.of_nat k)) /\
       chunks (engine sk) !! i = Some ck /\
       start ck = start c /\ end_ ck = end_ c /\
       retries ck = retries c + Z.of_nat k /\
       downloaded ck = downloaded c + sum_delivered fails /\
       completed ck = completed c) /\
  (forall fails a rest,
     is_stopped (engine s) = false ->
     session (engine s) <> None ->
     output_file (world s) <> None ->
     0 <= start c + downloaded c ->
     forallb failing fails = true ->
     (length fails < 5)%nat ->
     calm_transfer a = true ->
     retried a = false ->
     let run := download_chunk_with_retry i w 5 (fails ++ a :: rest) in
     let k := length fails in
     outcome run s = attempt_result a /\
     exists new c',
       effects (world (exec run s)) = (effects (world s) ++ new)%list /\
       requests new =
         attempt_requests (get_current_url (engine s)) caps c (downloaded c)
           (fails ++ [a]) /\
       sleeps new =
         map (fun attempt => Z.min (2 ^ attempt) 30) (range (Z.of_nat k)) /\
       chunks (engine (exec run s)) !! i = Some c' /\
       retries c' = retries c + Z.of_nat k /\
       downloaded c' = downloaded c + sum_delivered (fails ++ [a]) /\
       completed c' = completed c || ends_body a).
Proof.
  intros Hc Hcaps s'. subst s'. split_and!.
  - unfold exec, download_chunk_with_retry.
    destruct (retry_loop i w 5 (Z.to_nat 5) 0 script s) as [r s'] eqn:E.
    destruct (retry_loop_spec _ _ _ _ _ _ _ _ _ _ Hc E)
      as (new & done & Hm & Hreq & Hsl & Hbk & Hok & _ & _).
    destruct (mv_chunk _ _ _ _ _ Hm c Hc) as (c' & Hc' & Hcm).
    destruct Hcm as (_ & _ & _ & Hdl & Hrt & _).
    change (Z.to_nat 5) with 5%nat in *.
    exists new, c', (length (sleeps new)). cbn [snd].
    split_and!; try assumption.
    + apply (mv_effects _ _ _ _ _ Hm).
    + intros pre u rg post Hsplit.
      destruct (requests_ok_split _ _ _ _ _ _ _ _ _ (Hok caps Hcaps) Hsplit)
        as [-> ->].
      split; reflexivity.
    + rewrite Hbk at 1. now apply backoffs_first.
  - intros todo k a rest s0 x Hr Hx s1 s2.
    assert (retryable x = true) as Hrx by (destruct Hx as [->| ->]; reflexivity).
    split; [now apply retry_step|].
    intros c1 Hc1. subst s2. clearbody s1. unfold exec.
    destruct (on_retry i w 5 k a x s1) as [r2 s2] eqn:Er.
    destruct (on_retry_spec _ _ _ _ _ _ _ _ _ Er)
      as (-> & nc & Hm & Hqr & Hqs & Hqw).
    destruct (mv_chunk _ _ _ _ _ Hm c1 Hc1) as (c2 & Hc2 & Hcm).
    destruct Hcm as (_ & _ & _ & Hdl & Hrt & _).
    exists c2, nc. cbn [snd].
    rewrite sleeps_app, Hqs in Hrt. rewrite written_app, Hqw in Hdl.
    cbn in Hrt, Hdl.
    split_and!; try assumption; try lia.
    apply (mv_effects _ _ _ _ _ Hm).
  - intros a st body fin s0 c0 Hstop Hc0 Hcaps0 Hses Hrep H200 H206.
    eapply bad_status_raises; eauto.
    unfold accepted. apply Z.eqb_neq in H200, H206. now rewrite H200, H206.
  - intros fails rest Hs Hses Hf Hpos Hfails Hlen k.
    destruct (failing_attempts_run i w 5 fails 5 0 rest s c caps
                Hs Hc Hcaps Hses Hf Hpos Hfails Hlen)
      as (sk & new & E & Hm & Hr & Hsl & Hw & Hsk).
    destruct (mv_chunk _ _ _ _ _ Hm c Hc) as (ck & Hck & Hcm).
    destruct Hcm as (Hst & Hen & _ & Hdl & Hrt & Hcp).
    fold k in E, Hsl. rewrite Z.add_0_l in E.
    assert (length (requests new) = k) as Hrl.
    { rewrite Hr. unfold k. clear. generalize (downloaded c).
      induction fails as [|a fails IH]; intros d; cbn; [reflexivity|].
      now rewrite IH. }
    exists sk, new, ck.
    unfold download_chunk_with_retry. change (Z.to_nat 5) with 5%nat.
    split_and!; try assumption.
    + intros Hk. rewrite E, Hk. reflexivity.
    + apply (mv_effects _ _ _ _ _ Hm).
    + rewrite Hsl. now apply backoffs_first.
    + rewrite Hrt, Hsl, backoffs_length. reflexivity.
    + rewrite Hdl, Hw. reflexivity.
    + rewrite Hcp. apply orb_false_r.
  - intros fails a rest Hs Hses Hf Hpos Hfails Hlen Hcalm Hret run k.
    destruct (failing_attempts_run i w 5 fails 5 0 (a :: rest) s c caps
                Hs Hc Hcaps Hses Hf Hpos Hfails ltac:(lia))
      as (sk & n1 & E & Hm & Hr & Hsl & Hw & Hsk).
    destruct (mv_chunk _ _ _ _ _ Hm c Hc) as (ck & Hck & Hcm).
    destruct Hcm as (Hst & Hen & _ & Hdl & Hrt & Hcp).
    destruct (mv_config _ _ _ _ _ Hm) as (_ & _ & _ & Hcf & _ & _ & Hse).
    destruct (mv_files _ _ _ _ _ Hm) as (_ & _ & _ & Hof).
    pose proof (sum_delivered_nonneg fails) as Hnn.
    destruct (attempt_body_calm i a sk ck caps Hsk Hck)
      as (Hout & _ & more & Hma & Hr2 & Hsl2 & Hw2);
      try congruence; try lia.
    { destruct (output_file (world sk)), (output_file (world s));
        cbn in Hof; congruence. }
    assert (run s = attempt_body i a sk) as Erun.
    { unfold run, download_chunk_with_retry. change (Z.to_nat 5) with 5%nat.
      rewrite E. fold k.
      destruct (5 - k)%nat as [|t] eqn:Et; [unfold k in Et; lia|].
      apply last_attempt. intros x Hx. rewrite Hout in Hx.
      unfold retried in Hret. rewrite Hx in Hret. exact Hret. }
    unfold outcome, exec. rewrite Erun.
    fold (outcome (attempt_body i a) sk). fold (exec (attempt_body i a) sk).
    split; [exact Hout|].
    pose proof (moved_trans _ _ _ _ _ _ _ _ Hm Hma) as Hm2. cbn [orb] in Hm2.
    destruct (mv_chunk _ _ _ _ _ Hm2 c Hc) as (c' & Hc' & Hcm').
    destruct Hcm' as (_ & _ & _ & Hdl' & Hrt' & Hcp').
    set (rq := Request (get_current_url (engine sk)) (request_range caps ck))
      in *.
    assert (requests (rq :: more) = [(get_current_url (engine sk),
                                      request_range caps ck)] /\
            sleeps (rq :: more) = [] /\ written (rq :: more) = delivered a)
      as (Ra & Sa & Wa).
    { change (rq :: more) with ([rq] ++ more)%list.
      rewrite requests_app, sleeps_app, written_app, Hr2, Hsl2, Hw2.
      split_and!; reflexivity. }
    rewrite sleeps_app, Sa, app_nil_r in Hrt'.
    rewrite written_app, Wa, Hw in Hdl'.
    exists (n1 ++ rq :: more)%list, c'.
    rewrite requests_app, sleeps_app, Ra, Sa, Hr, app_nil_r.
    rewrite attempt_requests_app, sum_delivered_app.
    split_and!; try assumption.
    + apply (mv_effects _ _ _ _ _ Hm2).
    + f_equal. cbn. unfold request_range. cbn.
      rewrite (get_current_url_same _ _ (mv_config _ _ _ _ _ Hm)).
      now rewrite Hst, Hen, Hdl, Hw.
    + rewrite Hsl. apply backoffs_first. unfold k. lia.
    + rewrite Hrt', Hsl, backoffs_length. reflexivity.
    + rewrite Hdl'. cbn. lia.
Qed.

(** A server announcing ten bytes with range support and an engine of
    one worker, which has claimed the chunk [[0, 9]] of the
    pre-allocated file. *)
Definition ten_claimed : State :=
  exec (initialize true
          (ProbeHeaders [("Accept-Ranges", "bytes"); ("Content-Length", "10")]) ;;
        prepare_chunks ;; preallocate ;; get_next_chunk 0)
       (initial "http://t/f" 1 empty_world).

Lemma retry_loop_attempts_witness :
  let broken := plain_attempt 206 [Block five_bytes] (StreamRaises ClientError) in
  let refused := plain_attempt 503 [] EndOfBody in
  let served := plain_attempt 206 [Block five_bytes] EndOfBody in
  let run := download_chunk_with_retry 0 0 5 [broken; refused; served] in
  (outcome run ten_claimed = Return true /\
   exists new,
     effects (world (exec run ten_claimed)) =
       (effects (world ten_claimed) ++ new)%list /\
     requests new =
       [("http://t/f", Some (0, 9)); ("http://t/f", Some (5, 9));
        ("http://t/f", Some (5, 9))] /\
     sleeps new = [1; 2]) /\
  (exists sk new,
     download_chunk_with_retry 0 0 5 (replicate 5 refused ++ [served])
       ten_claimed = (Return false, sk) /\
     effects (world sk) = (effects (world ten_claimed) ++ new)%list /\
     requests new = replicate 5 ("http://t/f", Some (0, 9)) /\
     sleeps new = [1; 2; 4; 8; 16]).
Proof.
  cbn zeta.
  destruct (retry_loop_attempts 0 0 [] ten_claimed
              (set_thread_id (Some 0) (new_chunk 0 9))
              (probe_capabilities [("Accept-Ranges", "bytes")])
              eq_refl eq_refl)
    as (_ & _ & _ & Hfails & Hlast).
  split.
  - destruct (Hlast
                [plain_attempt 206 [Block five_bytes] (StreamRaises ClientError);
                 plain_attempt 503 [] EndOfBody]
                (plain_attempt 206 [Block five_bytes] EndOfBody) []
                eq_refl ltac:(vm_compute; discriminate)
                ltac:(vm_compute; discriminate) ltac:(vm_compute; discriminate)
                eq_refl ltac:(cbn; lia) eq_refl eq_refl)
      as (Hout & new & c' & Heff & Hreq & Hsl & _).
    split; [exact Hout|]. exists new.
    split; [exact Heff|]. split; [exact Hreq | exact Hsl].
  - destruct (Hfails
                (replicate 5 (plain_attempt 503 [] EndOfBody))
                [plain_attempt 206 [Block five_bytes] EndOfBody]
                eq_refl ltac:(vm_compute; discriminate)
                ltac:(vm_compute; discriminate) ltac:(vm_compute; discriminate)
                eq_refl ltac:(cbn; lia))
      as (sk & new & ck & _ & Hend & _ & Heff & Hreq & _ & Hsl & _).
    exists sk, new. split; [exact (Hend eq_refl)|].
    split; [exact Heff|]. split; [exact Hreq | exact Hsl].
Defined.

(** ** Claim protocol *)

Lemma find_free_spec cs : forall k,
  match find_free cs k with
  | Some j =>
      exists i c,
        j = (k + i)%nat /\ cs !! i = Some c /\ is_free c = true /\
        forall i' c', (i' < i)%nat -> cs !! i' = Some c' -> is_free c' = false
  | None => forall c, c ∈ cs -> is_free c = false
  end.
Proof.
  induction cs as [|c cs IH]; intros k; cbn [find_free].
  - intros c Hc. now apply elem_of_nil in Hc.
  - destruct (is_free c) eqn:Hf.
    + exists 0%nat, c. split_and!; try easy; try lia.
    + specialize (IH (S k)). destruct (find_free cs (S k)) as [j|].
      * destruct IH as (i & c0 & -> & Hi & Hfree & Hbefore).
        exists (S i), c0. split_and!; try easy; try lia.
        intros [|i'] c' Hlt Hc'; cbn in Hc'.
        -- congruence.
        -- eapply Hbefore; eauto. lia.
      * intros c0 Hc0. apply elem_of_cons in Hc0 as [->|Hc0]; auto.
Qed.

Lemma alter_as_insert (f : ChunkInfo -> ChunkInfo) (cs : list ChunkInfo) :
  forall (i : nat) c,
  cs !! i = Some c -> alter f i cs = <[i := f c]> cs.
Proof.
  induction cs as [|c0 cs IH]; intros [|i] c H; cbn in *; try congruence.
  f_equal. now apply IH.
Qed.


Lemma is_free_true c :
  is_free c = true <-> completed c = false /\ thread_id c = None.
Proof.
  unfold is_free. destruct (completed c), (thread_id c); cbn;
    intuition congruence.
Qed.

(** What [get_next_chunk] does, in terms of the chunk vector. *)
Lemma get_next_chunk_run w s :
  match find_free (chunks (engine s)) 0 with
  | Some i =>
      get_next_chunk w s =
        (Return (Some i),
         {| engine :=
              set_chunks (alter (set_thread_id (Some w)) i (chunks (engine s)))
                         (engine s);
            world := world s |})
  | None => get_next_chunk w s = (Return None, s)
  end.
Proof.
  unfold get_next_chunk, bind, get_engine. cbv beta iota.
  destruct (find_free (chunks (engine s)) 0); [reflexivity|].
  now destruct s.
Qed.

(** Chunk [i] carries the claim of worker [w]. *)
Definition claimed_by (i : nat) (w : Z) (s : State) : Prop :=
  exists c, chunks (engine s) !! i = Some c /\ thread_id c = Some w.

(** Predicates on states that no step of the transfer phase breaks:
    advancing a chunk, changing the files or the log, claiming a free
    chunk. *)
Record stable (P : State -> Prop) : Prop := mkStable {
  st_moved : forall j s s' new done, moved j s s' new done -> P s -> P s';
  st_world : forall s w', P s -> P {| engine := engine s; world := w' |};
  st_claim : forall s j w' c,
    chunks (engine s) !! j = Some c -> is_free c = true -> P s ->
    P {| engine :=
           set_chunks (alter (set_thread_id (Some w')) j (chunks (engine s)))
                      (engine s);
         world := world s |}
}.

Lemma claimed_by_stable i w : stable (claimed_by i w).
Proof.
  constructor.
  - intros j s s' new done Hm (c & Hc & Ht).
    destruct (decide (i = j)) as [->|Hne].
    + destruct (mv_chunk _ _ _ _ _ Hm c Hc) as (c' & Hc' & Hcm).
      exists c'. split; [exact Hc'|].
      destruct Hcm as (_ & _ & Hth & _). congruence.
    + exists c. split; [|exact Ht].
      now rewrite (mv_other _ _ _ _ _ Hm i Hne).
  - intros s w' H. exact H.
  - intros s j w' c0 Hc0 Hfree (c & Hc & Ht). exists c. split; [|exact Ht].
    cbn. rewrite list_lookup_alter_ne; [exact Hc|].
    intros ->. apply is_free_true in Hfree as [_ Hnone]. congruence.
Qed.

Lemma downloaded_size_stable n :
  stable (fun s => n <= downloaded_size (engine s)).
Proof.
  constructor.
  - intros j s s' new done Hm H.
    rewrite (mv_size _ _ _ _ _ Hm).
    pose proof (mv_nonneg _ _ _ _ _ Hm). lia.
  - intros s w' H. exact H.
  - intros s j w' c _ _ H. exact H.
Qed.

Section Stable.

Variable P : State -> Prop.
Hypothesis HP : stable P.

Lemma emit_stable x s : P s -> P (exec (emit x) s).
Proof. intros H. apply (st_world P HP s _ H). Qed.

Lemma controls_stable cs s r s' :
  controls cs s = (r, s') -> P s -> r = Return tt /\ P s'.
Proof.
  intros H Hs. destruct (controls_spec 0%nat _ _ _ _ H) as (-> & new & Hm & _).
  split; [reflexivity|]. eapply st_moved; eauto.
Qed.

Lemma pause_loop_stable ps : forall s r s',
  pause_loop ps s = (r, s') -> P s -> P s'.
Proof.
  induction ps as [|cs ps IH]; intros s r s' H Hs;
    cbn [pause_loop] in H; unfold bind at 1, get_engine in H;
    cbv beta iota in H; destruct (is_paused (engine s)).
  - now injection H as <- <-.
  - now injection H as <- <-.
  - unfold bind at 1 in H.
    pose proof (emit_stable PollSleep s Hs) as H0. unfold exec in H0.
    destruct (emit PollSleep s) as [r0 s0] eqn:E0.
    unfold emit, upd_world in E0. injection E0 as <- E0.
    cbn [snd] in H0. unfold bind at 1 in H.
    destruct (controls cs s0) as [r1 s1] eqn:E1.
    destruct (controls_stable _ _ _ _ E1 H0) as (-> & H1).
    unfold bind at 1, get_engine in H. cbv beta iota in H.
    destruct (is_stopped (engine s1)).
    + now injection H as <- <-.
    + eapply IH; eauto.
  - now injection H as <- <-.
Qed.

Lemma get_next_chunk_stable w s r s' :
  get_next_chunk w s = (r, s') -> P s ->
  P s' /\
  match r with
  | Return (Some i) => exists c, chunks (engine s') !! i = Some c
  | Return None => True
  | _ => False
  end.
Proof.
  intros H Hs. pose proof (get_next_chunk_run w s) as Hrun.
  pose proof (find_free_spec (chunks (engine s)) 0) as Hff.
  destruct (find_free (chunks (engine s)) 0) as [j|].
  - rewrite Hrun in H. injection H as <- <-.
    destruct Hff as (i & c & -> & Hi & Hfree & _). cbn [Nat.add].
    split; [eapply st_claim; eauto|].
    cbn. rewrite list_lookup_alter_eq, Hi. cbn. eauto.
  - rewrite Hrun in H. injection H as <- <-. easy.
Qed.

Lemma transfer_stable i w m script s r s' c :
  chunks (engine s) !! i = Some c ->
  download_chunk_with_retry i w m script s = (r, s') -> P s -> P s'.
Proof.
  intros Hc H Hs. unfold download_chunk_with_retry in H.
  destruct (retry_loop_spec _ _ _ _ _ _ _ _ _ _ Hc H) as (new & done & Hm & _).
  eapply st_moved; eauto.
Qed.

Lemma save_metadata_stable s r s' :
  save_metadata s = (r, s') -> P s -> P s'.
Proof.
  intros H Hs. unfold save_metadata, get_capabilities, bind, get_engine,
    get_world in H.
  cbv beta iota in H.
  destruct (capabilities (engine s)) as [caps|]; [|now injection H as <- <-].
  unfold ret at 1 in H. cbv beta iota in H.
  destruct (supports_resume caps); cbn [negb] in H;
    [|now injection H as <- <-].
  destruct (dir_writable (world s)); injection H as <- <-;
    now apply (st_world P HP).
Qed.

Lemma worker_round_stable w rd next s r s' :
  (forall s0 r0 s0', next s0 = (r0, s0') -> P s0 -> P s0') ->
  worker_round w rd next s = (r, s') -> P s -> P s'.
Proof.
  intros Hnext H Hs. unfold worker_round in H. unfold bind at 1 in H.
  destruct (pause_loop (polls rd) s) as [r0 s0] eqn:E0.
  pose proof (pause_loop_stable _ _ _ _ E0 Hs) as H0.
  destruct r0 as [go|x|]; [|now injection H as <- <-..].
  destruct go; cbn [negb] in H; [|now injection H as <- <-].
  unfold bind at 1 in H.
  destruct (get_next_chunk w s0) as [r1 s1] eqn:E1.
  destruct (get_next_chunk_stable _ _ _ _ E1 H0) as [H1 Hex].
  destruct r1 as [[i|]|x|]; try easy; [|now injection H as <- <-].
  destruct Hex as (c & Hc). unfold bind at 1 in H.
  destruct (download_chunk_with_retry i w 5 (attempts rd) s1)
    as [r2 s2] eqn:E2.
  pose proof (transfer_stable _ _ _ _ _ _ _ _ Hc E2 H1) as H2.
  destruct r2 as [ok|x|]; [|now injection H as <- <-..].
  unfold bind at 1 in H.
  destruct ((if ok then save_metadata
             else _update_status (MsgChunkFailed w)) s2)
    as [r3 s3] eqn:E3.
  assert (P s3) as H3.
  { destruct ok; [eapply save_metadata_stable; eauto|].
    unfold _update_status, emit, upd_world in E3. injection E3 as <- <-.
    now apply (st_world P HP). }
  destruct r3; [eapply Hnext; eauto | now injection H as <- <-..].
Qed.

Lemma download_worker_stable w script : forall s r s',
  download_worker w script s = (r, s') -> P s -> P s'.
Proof.
  induction script as [|rd rest IH]; intros s r s' H Hs;
    cbn [download_worker] in H; unfold bind at 1, get_engine in H;
    cbv beta iota in H; destruct (is_stopped (engine s));
    try (now injection H as <- <-).
  - eapply worker_round_stable; [|exact H|exact Hs].
    intros s0 r0 s0' H0 Hs0. now injection H0 as <- <-.
  - eapply worker_round_stable; [|exact H|exact Hs]. exact IH.
Qed.

End Stable.

(** What may happen in the rest of a session: a worker runs on some
    script, or the owner calls [pause], [resume] or [stop]. *)
Inductive SessionStep :=
| WorkerRuns (w : Z) (script : list Round)
| OwnerCalls (c : ControlCall).

Definition run_step (x : SessionStep) (s : State) : State :=
  match x with
  | WorkerRuns w script => exec (download_worker w script) s
  | OwnerCalls c => exec (control c) s
  end.

Definition run_steps (l : list SessionStep) (s : State) : State :=
  fold_left (fun s x => run_step x s) l s.

Lemma run_steps_stable P : stable P ->
  forall l s, P s -> P (run_steps l s).
Proof.
  intros HP. induction l as [|x l IH]; intros s Hs; cbn; [exact Hs|].
  apply IH. destruct x as [w script|c]; cbn; unfold exec.
  - destruct (download_worker w script s) as [r s'] eqn:E.
    eapply download_worker_stable; eauto.
  - destruct (moved_control 0%nat c s) as (x & _ & Hm).
    eapply st_moved; eauto.
Qed.

(** A claimed chunk is not handed out. *)
Lemma claimed_not_next i w0 w s :
  claimed_by i w0 s -> outcome (get_next_chunk w) s <> Return (Some i).
Proof.
  intros (c & Hc & Ht). unfold outcome.
  pose proof (get_next_chunk_run w s) as Hrun.
  pose proof (find_free_spec (chunks (engine s)) 0) as Hff.
  destruct (find_free (chunks (engine s)) 0) as [j|]; rewrite Hrun; cbn;
    [|discriminate].
  destruct Hff as (i' & c' & -> & Hi' & Hfree & _). cbn [Nat.add].
  intros [= ->]. rewrite Hc in Hi'. injection Hi' as <-.
  apply is_free_true in Hfree as [_ Hnone]. congruence.
Qed.


(** ** Pause and the block loop *)

(** [downloaded_size] never regresses, whatever workers and owner do. *)
Lemma downloaded_size_never_regresses steps s :
  downloaded_size (engine s) <= downloaded_size (engine (run_steps steps s)).
Proof.
  apply (run_steps_stable _ (downloaded_size_stable _)). lia.
Qed.

(** The block loop does not look at the pause flag: as long as the stop
    flag is clear, every block that arrives is written and counted. *)
Lemma blocks_written_whatever_pause i fin : forall blocks pos s,
  is_stopped (engine s) = false ->
  let s' := exec (stream_body i pos (map Block blocks) fin) s in
  downloaded_size (engine s') =
    downloaded_size (engine s) + body_bytes (map Block blocks) /\
  is_paused (engine s') = is_paused (engine s) /\
  is_stopped (engine s') = false.
Proof.
  induction blocks as [|d blocks IH]; intros pos s Hstop; cbn zeta.
  - unfold exec. cbn [map stream_body].
    destruct fin; cbn; split_and!; try easy; lia.
  - unfold exec. cbn [map]. rewrite (stream_body_block _ _ _ _ _ _ Hstop).
    destruct (write_block_engine i pos d s) as (Hsz1 & Hp1 & Hs1).
    rewrite Hstop in Hs1.
    destruct (IH (pos + block_len d) _ Hs1) as (Hsz & Hp & Hs).
    unfold exec at 1 in Hsz. unfold exec at 1 in Hp. unfold exec at 1 in Hs.
    rewrite Hsz, Hp, Hs, Hsz1, Hp1. cbn [body_bytes foldr].
    fold (body_bytes (map Block blocks)). split_and!; try reflexivity. lia.
Qed.

(** A server announcing 15 bytes without range support; worker 0 has
    claimed the single chunk [[0, 14]] of the pre-allocated file. *)
Definition fifteen_claimed : State :=
  exec (initialize true (ProbeHeaders [("Content-Length", "15")]) ;;
        prepare_chunks ;; preallocate ;; get_next_chunk 0)
       (initial "http://t/f" 8 empty_world).

(** C2. Worker 0 streams its chunk; after the first five-byte block the
    owner calls [pause] and never [stop].  At that point
    [downloaded_size] is 5 with the pause flag set and the stop flag
    clear; the two blocks that arrive next are written all the same and
    [downloaded_size] reaches 15 while the engine is paused. *)
Theorem pause_does_not_hold_the_block_loop :
  let at_pause :=
    exec (download_chunk_with_retry 0 0 5
            [plain_attempt 200 [Block five_bytes; Call CallPause] StreamCut])
         fifteen_claimed in
  let later :=
    exec (download_chunk_with_retry 0 0 5
            [plain_attempt 200
               [Block five_bytes; Call CallPause;
                Block five_bytes; Block five_bytes] StreamCut])
         fifteen_claimed in
  is_paused (engine at_pause) = true /\
  is_stopped (engine at_pause) = false /\
  downloaded_size (engine at_pause) = 5 /\
  is_paused (engine later) = true /\
  is_stopped (engine later) = false /\
  downloaded_size (engine later) = 15.
Proof. vm_compute. repeat split; reflexivity. Qed.

(** * Further properties of the engine *)

(** ** The probe never fails *)

Lemma detect_capabilities_frame (reply : ProbeReply) (s : State) :
  outcome (detect_capabilities reply) s = Return tt /\
  capabilities (engine (exec (detect_capabilities reply) s)) <> None /\
  chunks (engine (exec (detect_capabilities reply) s)) = chunks (engine s) /\
  session (engine (exec (detect_capabilities reply) s)) = session (engine s) /\
  url (engine (exec (detect_capabilities reply) s)) = url (engine s) /\
  output_file (world (exec (detect_capabilities reply) s)) =
    output_file (world s) /\
  metadata_file (world (exec (detect_capabilities reply) s)) =
    metadata_file (world s) /\
  dir_writable (world (exec (detect_capabilities reply) s)) =
    dir_writable (world s) /\
  monitor_task (world (exec (detect_capabilities reply) s)) =
    monitor_task (world s).
Proof.
  destruct s as [e [out meta dw mt eff]].
  unfold exec, outcome, detect_capabilities, open_session, probe_total_size,
    try_except, bind, get_engine, get_capabilities, _update_status, emit,
    upd_world, upd_engine, when, ret, raise.
  cbn. destruct (session e) as [[|]|] eqn:Hs; cbn; rewrite ?Hs; try easy.
  destruct reply as [x|h]; cbn; rewrite ?Hs; [easy|].
  generalize (probe_capabilities h). intros pc.
  destruct (parsed_total_size h) as [n|]; cbn; rewrite ?Hs; [|easy].
  destruct (supports_range pc); cbn;
    destruct (megabytes_overflow n); cbn; rewrite ?Hs; easy.
Qed.

(** X1. Whatever the server answers, and even when the request raises,
    [detect_capabilities] returns normally with [capabilities] set; it
    touches neither the files, nor the chunk vector, nor the session. *)
Theorem detect_capabilities_always_returns (reply : ProbeReply) (s : State) :
  let s' := exec (detect_capabilities reply) s in
  outcome (detect_capabilities reply) s = Return tt /\
  capabilities (engine s') <> None /\
  chunks (engine s') = chunks (engine s) /\
  session (engine s') = session (engine s) /\
  url (engine s') = url (engine s) /\
  output_file (world s') = output_file (world s) /\
  metadata_file (world s') = metadata_file (world s) /\
  dir_writable (world s') = dir_writable (world s) /\
  monitor_task (world s') = monitor_task (world s).
Proof. exact (detect_capabilities_frame reply s). Qed.

(** ** Sidecar: what is saved is what is restored *)

(** The state a later engine [e2] starts from when it finds the sidecar
    that the engine of [s] saved. *)
Definition resuming (s : State) (e2 : DownloadEngine) : State :=
  {| engine := e2; world := world (exec save_metadata s) |}.

Lemma prepare_chunks_resuming
  (s : State) (c : ServerCapabilities) (e2 : DownloadEngine) :
  capabilities (engine s) = Some c ->
  supports_resume c = true ->
  dir_writable (world s) = true ->
  url e2 = url (engine s) ->
  total_size e2 = total_size (engine s) ->
  outcome prepare_chunks (resuming s e2) = Return tt /\
  chunks (engine (exec prepare_chunks (resuming s e2))) = chunks (engine s) /\
  downloaded_size (engine (exec prepare_chunks (resuming s e2))) =
    sum_downloaded (chunks (engine s)) /\
  metadata_file (world (exec prepare_chunks (resuming s e2))) =
    metadata_file (world (exec save_metadata s)) /\
  metadata_file (world (exec prepare_chunks (resuming s e2))) <> None.
Proof.
  intros Hcaps Hres Hdw Hurl Htotal.
  destruct s as [e [out meta dw mt eff]]. cbn in Hcaps, Hdw. subst dw.
  unfold resuming, exec, outcome, save_metadata, prepare_chunks,
    load_metadata, try_except, bind, get_capabilities, get_engine, get_world,
    upd_world, upd_engine, _update_status, emit, ret.
  cbn. rewrite Hcaps. cbn. rewrite Hres. cbn.
  unfold doc_matches. cbn. rewrite Hurl, Htotal, String.eqb_refl, Z.eqb_refl.
  cbn. easy.
Qed.

(** X2. When the server is resumable and the sidecar can be written, an
    engine for the same url that probes the same size restores, through
    [prepare_chunks], exactly the chunk vector that was saved, sets
    [downloaded_size] to the sum of the chunks' [downloaded], and keeps
    the sidecar in place. *)
Theorem save_then_prepare_restores_chunks
  (s : State) (c : ServerCapabilities) (e2 : DownloadEngine) :
  capabilities (engine s) = Some c ->
  supports_resume c = true ->
  dir_writable (world s) = true ->
  url e2 = url (engine s) ->
  total_size e2 = total_size (engine s) ->
  let s2 := exec prepare_chunks (resuming s e2) in
  outcome prepare_chunks (resuming s e2) = Return tt /\
  chunks (engine s2) = chunks (engine s) /\
  downloaded_size (engine s2) = sum_downloaded (chunks (engine s)) /\
  metadata_file (world s2) = metadata_file (world (exec save_metadata s)) /\
  metadata_file (world s2) <> None.
Proof.
  intros Hcaps Hres Hdw Hurl Htotal.
  exact (prepare_chunks_resuming s c e2 Hcaps Hres Hdw Hurl Htotal).
Qed.

Definition resumable_caps : ServerCapabilities :=
  {| supports_range := true; supports_resume := true;
     supports_compression := false; supports_http2 := false;
     max_connections := 8; content_encoding := None |}.

(** An engine half-way through two chunks, both claimed. *)
Definition halfway : State :=
  {| engine :=
       set_chunks
         [set_thread_id (Some 0) (set_downloaded 3 (new_chunk 0 4));
          set_thread_id (Some 1) (set_downloaded 1 (new_chunk 5 9))]
         (set_downloaded_size 4
            (set_capabilities resumable_caps
               (set_total_size 10 (new_engine "http://t/f" 2))));
     world := set_output_file (Some (replicate 10 Byte.x00)) empty_world |}.

Lemma save_then_prepare_restores_chunks_witness :
  chunks (engine (exec prepare_chunks
                    (resuming halfway
                       (set_total_size 10 (new_engine "http://t/f" 2))))) =
  chunks (engine halfway).
Proof.
  exact (proj1 (proj2 (save_then_prepare_restores_chunks halfway
           resumable_caps (set_total_size 10 (new_engine "http://t/f" 2))
           eq_refl eq_refl eq_refl eq_refl eq_refl))).
Defined.

(** X3. The sidecar records the claimant of each chunk, and nothing clears
    it on load: a chunk that some worker had claimed when the sidecar
    was saved is never handed out by [get_next_chunk] in the session of
    the engine that resumes from it, completed or not. *)
Theorem resumed_claims_are_never_handed_out
  (s : State) (c : ServerCapabilities) (e2 : DownloadEngine)
  (i : nat) (w0 : Z) :
  capabilities (engine s) = Some c ->
  supports_resume c = true ->
  dir_writable (world s) = true ->
  url e2 = url (engine s) ->
  total_size e2 = total_size (engine s) ->
  claimed_by i w0 s ->
  forall steps w,
    outcome (get_next_chunk w)
      (run_steps steps (exec prepare_chunks (resuming s e2)))
    <> Return (Some i).
Proof.
  intros Hcaps Hres Hdw Hurl Htotal Hcl steps w.
  apply (claimed_not_next i w0).
  apply run_steps_stable; [apply claimed_by_stable|].
  destruct (prepare_chunks_resuming s c e2 Hcaps Hres Hdw Hurl Htotal)
    as (_ & Hchunks & _).
  destruct Hcl as (c0 & Hc0 & Ht). exists c0. rewrite Hchunks.
  split; assumption.
Qed.

Lemma resumed_claims_are_never_handed_out_witness :
  outcome (get_next_chunk 0)
    (exec prepare_chunks
       (resuming halfway (set_total_size 10 (new_engine "http://t/f" 2))))
  <> Return (Some 0%nat).
Proof.
  apply (resumed_claims_are_never_handed_out halfway resumable_caps
           (set_total_size 10 (new_engine "http://t/f" 2)) 0%nat 0
           eq_refl eq_refl eq_refl eq_refl eq_refl
           (ex_intro _ _ (conj eq_refl eq_refl)) [] 0).
Defined.

(** ** Sidecar: errors [load_metadata] does not handle *)

(** X4. A sidecar that is valid JSON but not an object, or whose [chunks]
    entries the [ChunkInfo] constructor rejects, makes [prepare_chunks]
    raise ([AttributeError], [TypeError]): these are not in the [except]
    clause, so the sidecar is neither deleted nor replaced and the
    engine is left as it was. *)
Theorem prepare_chunks_unhandled_sidecar (s : State) (f : SidecarFile) :
  metadata_file (world s) = Some f ->
  (f = NotAnObject \/
   exists d, f = Document d /\ doc_matches d (engine s) = true /\
             doc_chunks d = ChunksInvalid) ->
  exists x,
    prepare_chunks s = (Raise x, s) /\
    (x = AttributeError \/ x = TypeError).
Proof.
  intros Hmeta Hf. destruct s as [e [out meta dw mt eff]].
  cbn in Hmeta. subst meta.
  unfold prepare_chunks, load_metadata, try_except, bind, get_world,
    get_engine.
  destruct Hf as [->|(d & -> & Hm & Hc)]; cbn.
  - exists AttributeError. auto.
  - cbn in Hm. rewrite Hm, Hc. cbn. exists TypeError. auto.
Qed.

Lemma prepare_chunks_unhandled_sidecar_witness :
  exists x,
    prepare_chunks
      (initial "http://t/f" 4 (set_metadata_file (Some NotAnObject) empty_world))
    = (Raise x,
       initial "http://t/f" 4 (set_metadata_file (Some NotAnObject) empty_world)).
Proof.
  destruct (prepare_chunks_unhandled_sidecar
              (initial "http://t/f" 4
                 (set_metadata_file (Some NotAnObject) empty_world))
              NotAnObject eq_refl (or_introl eq_refl)) as (x & Hx & _).
  exists x. exact Hx.
Defined.

(** ** The stop flag *)

Lemma download_worker_stopped w script s :
  is_stopped (engine s) = true ->
  download_worker w script s = (Return tt, s).
Proof.
  intros H. destruct script; cbn [download_worker];
    unfold bind, get_engine; cbv beta iota; now rewrite H.
Qed.

(** What a step of a stopped session may still change: the pause flag
    and the log, where only status messages are added. *)
Definition at_rest (s s' : State) : Prop :=
  is_stopped (engine s') = true /\
  chunks (engine s') = chunks (engine s) /\
  downloaded_size (engine s') = downloaded_size (engine s) /\
  output_file (world s') = output_file (world s) /\
  metadata_file (world s') = metadata_file (world s) /\
  exists new, effects (world s') = (effects (world s) ++ new)%list /\
              quiet new.

Lemma run_step_at_rest x s :
  is_stopped (engine s) = true -> at_rest s (run_step x s).
Proof.
  intros H. destruct x as [w script|c]; cbn [run_step]; unfold exec.
  - rewrite (download_worker_stopped _ _ _ H). cbn [snd].
    unfold at_rest. split_and!; try easy.
    exists []. now rewrite app_nil_r.
  - destruct c, s as [e w]; cbn in *; unfold at_rest; cbn;
      (split_and!; try easy); eexists; (split; [reflexivity|easy]).
Qed.

Lemma at_rest_trans s1 s2 s3 :
  at_rest s1 s2 -> at_rest s2 s3 -> at_rest s1 s3.
Proof.
  intros (_ & C1 & D1 & O1 & M1 & n1 & E1 & Q1)
         (S2 & C2 & D2 & O2 & M2 & n2 & E2 & Q2).
  unfold at_rest. split_and!; try congruence.
  exists (n1 ++ n2)%list. split; [|now apply quiet_app].
  now rewrite E2, E1, app_assoc.
Qed.

(** X5. Once [is_stopped] is set, nothing the owner calls and no worker
    started afterwards clears it ([is_running] stays false).  A worker
    that is started, or that comes back to the test of its outer loop,
    once the flag is set returns at once, and a transfer that begins
    then returns [False] before its first request: through any sequence
    of such worker runs and owner calls no chunk is claimed or advanced,
    no request is sent, no sleep is made, no byte is written and the
    files stay as they are.  A worker that the flag catches inside an
    attempt is not a step of such a sequence and is not covered. *)
Theorem stop_is_final (steps : list SessionStep) (s : State) :
  is_stopped (engine s) = true ->
  let s' := run_steps steps s in
  is_stopped (engine s') = true /\
  is_running (engine s') = false /\
  chunks (engine s') = chunks (engine s) /\
  downloaded_size (engine s') = downloaded_size (engine s) /\
  output_file (world s') = output_file (world s) /\
  metadata_file (world s') = metadata_file (world s) /\
  (exists new, effects (world s') = (effects (world s) ++ new)%list /\
               requests new = [] /\ sleeps new = [] /\ written new = 0) /\
  (forall w script, download_worker w script s' = (Return tt, s')) /\
  (forall i w script,
     download_chunk_with_retry i w 5 script s' = (Return false, s')).
Proof.
  intros H s'. subst s'.
  assert (at_rest s (run_steps steps s)) as Hrest.
  { revert s H. induction steps as [|x steps IH]; intros s H; cbn.
    - unfold at_rest. split_and!; try easy.
      exists []. now rewrite app_nil_r.
    - pose proof (run_step_at_rest x s H) as H1.
      eapply at_rest_trans; [exact H1|]. apply IH. apply H1. }
  destruct Hrest as (S1 & C1 & D1 & O1 & M1 & new & E1 & Q1).
  split_and!; try assumption.
  - unfold is_running. rewrite S1. apply andb_false_r.
  - exists new. split; [exact E1 | exact Q1].
  - intros w script. now apply download_worker_stopped.
  - intros i w script. unfold download_chunk_with_retry.
    change (Z.to_nat 5) with 5%nat. cbn [retry_loop].
    destruct script as [|a rest].
    + unfold bind, get_engine. cbv beta iota. now rewrite S1.
    + unfold try_except, attempt_body, bind, get_engine. cbv beta iota.
      now rewrite S1.
Qed.

(** A server announcing five bytes without range support: the single
    chunk [[0, 4]] is planned and the file pre-allocated, and no worker
    has claimed the chunk yet. *)
Definition five_planned : State :=
  exec (initialize true (ProbeHeaders [("Content-Length", "5")]) ;;
        prepare_chunks ;; preallocate)
       (initial "http://t/f" 8 empty_world).

Lemma stop_is_final_witness :
  let s := exec stop five_planned in
  let s' := run_steps [WorkerRuns 0 one_shot; OwnerCalls CallResume;
                       WorkerRuns 1 one_shot] s in
  find_free (chunks (engine s)) 0 = Some 0%nat /\
  is_stopped (engine s') = true /\
  chunks (engine s') = chunks (engine s).
Proof.
  cbn zeta. split; [reflexivity|].
  pose proof (stop_is_final
                [WorkerRuns 0 one_shot; OwnerCalls CallResume;
                 WorkerRuns 1 one_shot]
                (exec stop five_planned) eq_refl) as (H1 & _ & H2 & _).
  split; [exact H1 | exact H2].
Defined.

(** ** Stop and the block loop *)

Definition has_block (body : list StreamEvent) : bool :=
  existsb (fun ev => match ev with Block _ => true | Call _ => false end) body.

(** X6. Under the stop flag the block loop writes nothing: it returns
    [False] at the first block that arrives, whatever the owner calls
    in between, and ends as the stream does when no block arrives. *)
Theorem stop_holds_the_block_loop
  (i : nat) (fin : StreamEnd) (body : list StreamEvent) (pos : Z) (s : State) :
  is_stopped (engine s) = true ->
  let s' := exec (stream_body i pos body fin) s in
  outcome (stream_body i pos body fin) s =
    (if has_block body then Return false else fin_result fin) /\
  is_stopped (engine s') = true /\
  chunks (engine s') = chunks (engine s) /\
  downloaded_size (engine s') = downloaded_size (engine s) /\
  output_file (world s') = output_file (world s) /\
  written (effects (world s')) = written (effects (world s)).
Proof.
  revert pos s. induction body as [|ev body IH]; intros pos s H; cbn zeta.
  - destruct fin; cbn; easy.
  - destruct ev as [d|c]; cbn [stream_body has_block existsb orb].
    + unfold outcome, exec, bind, get_engine. cbv beta iota. rewrite H.
      cbn. easy.
    + unfold outcome, exec, bind.
      pose proof (run_step_at_rest (OwnerCalls c) s H) as Hr.
      cbn [run_step] in Hr. unfold exec in Hr.
      destruct (moved_control i c s) as (x & Hout & _). unfold outcome in Hout.
      destruct (control c s) as [r1 s1]. cbn [fst snd] in *. subst r1.
      destruct Hr as (S1 & C1 & D1 & O1 & M1 & new & E1 & _ & _ & W1).
      specialize (IH pos s1 S1). cbn zeta in IH.
      unfold outcome, exec in IH.
      destruct (stream_body i pos body fin s1) as [r2 s2]. cbn [fst snd] in *.
      destruct IH as (R2 & S2 & C2 & D2 & O2 & W2).
      split_and!; try congruence; [exact R2|].
      rewrite W2, E1, written_app. lia.
Qed.

Lemma stop_holds_the_block_loop_witness :
  outcome (stream_body 0 0 [Call CallResume; Block five_bytes] EndOfBody)
          (exec stop five_claimed) = Return false.
Proof.
  exact (proj1 (stop_holds_the_block_loop 0 EndOfBody
           [Call CallResume; Block five_bytes] 0 (exec stop five_claimed)
           eq_refl)).
Defined.

(** ** What a successful attempt leaves in the file *)

(** Writing two blocks one after the other is writing their
    concatenation. *)
Lemma write_at_app (pos : nat) (d1 d2 content : list Byte.byte) :
  write_at (pos + length d1) d2 (write_at pos d1 content) =
  write_at pos (d1 ++ d2) content.
Proof.
  unfold write_at.
  set (P := (take pos content ++
             replicate (pos - length content) Byte.x00)%list).
  assert (length P = pos) as HP.
  { unfold P. rewrite length_app, length_take, length_replicate. lia. }
  set (D := drop (pos + length d1) content).
  replace (take pos content ++ replicate (pos - length content) Byte.x00 ++
             d1 ++ D)%list
    with ((P ++ d1) ++ D)%list
    by (unfold P; now rewrite <- !app_assoc).
  assert (length (P ++ d1) = (pos + length d1)%nat) as HPd
    by (rewrite length_app; lia).
  rewrite (take_app_length' (P ++ d1) D) by (symmetry; exact HPd).
  replace (pos + length d1 - length ((P ++ d1) ++ D))%nat with 0%nat
    by (rewrite length_app; lia).
  rewrite <- HPd at 1. rewrite drop_app_add. unfold D. rewrite drop_drop.
  rewrite length_app. cbn [replicate app]. unfold P.
  rewrite <- !app_assoc, Nat.add_assoc. reflexivity.
Qed.

Lemma write_at_nothing (pos : nat) (content : list Byte.byte) :
  (pos <= length content)%nat -> write_at pos [] content = content.
Proof.
  intros H. unfold write_at.
  replace (pos - length content)%nat with 0%nat by lia.
  cbn. rewrite Nat.add_0_r. apply take_drop.
Qed.

Lemma write_at_length (pos : nat) (d content : list Byte.byte) :
  length (write_at pos d content) =
  Nat.max (length content) (pos + length d).
Proof.
  unfold write_at.
  rewrite !length_app, length_take, length_replicate, length_drop. lia.
Qed.

(** The bytes a body carries, in order. *)
Definition body_data (body : list StreamEvent) : list Byte.byte :=
  flat_map (fun ev => match ev with Block d => d | Call _ => [] end) body.

Lemma write_block_run i pos d s c content :
  chunks (engine s) !! i = Some c ->
  output_file (world s) = Some content ->
  let s1 := exec (write_block i pos d) s in
  is_stopped (engine s1) = is_stopped (engine s) /\
  chunks (engine s1) =
    <[i := set_downloaded (downloaded c + block_len d) c]> (chunks (engine s)) /\
  downloaded_size (engine s1) = downloaded_size (engine s) + block_len d /\
  output_file (world s1) = Some (write_at (Z.to_nat pos) d content).
Proof.
  intros Hc Hf. destruct s as [e w]. cbn in *. rewrite Hf. cbn.
  split_and!; try reflexivity.
  exact (alter_as_insert
           (fun c0 => set_downloaded (downloaded c0 + block_len d) c0)
           _ _ _ Hc).
Qed.

Lemma set_downloaded_twice a b c :
  set_downloaded (downloaded (set_downloaded a c) + b) (set_downloaded a c) =
  set_downloaded (a + b) c.
Proof. now destruct c. Qed.

(** With the stop flag clear and never set on the way, the block loop
    runs to the end of the body; the file then holds the bytes of the
    body, in order, from offset [pos]. *)
Lemma stream_body_delivers i : forall body pos s c content,
  is_stopped (engine s) = false ->
  calm_body body = true ->
  chunks (engine s) !! i = Some c ->
  output_file (world s) = Some content ->
  0 <= pos -> (Z.to_nat pos <= length content)%nat ->
  let s' := exec (stream_body i pos body EndOfBody) s in
  outcome (stream_body i pos body EndOfBody) s = Return true /\
  is_stopped (engine s') = false /\
  chunks (engine s') =
    <[i := set_downloaded (downloaded c + body_bytes body) c]>
      (chunks (engine s)) /\
  downloaded_size (engine s') = downloaded_size (engine s) + body_bytes body /\
  output_file (world s') =
    Some (write_at (Z.to_nat pos) (body_data body) content).
Proof.
  induction body as [|ev body IH]; intros pos s c content Hs Hb Hc Hf Hp Hl;
    cbn zeta.
  - cbn. rewrite !Z.add_0_r, set_downloaded_same, list_insert_id by exact Hc.
    rewrite write_at_nothing by exact Hl. easy.
  - cbn in Hb. apply andb_prop in Hb as [Hev Hb].
    destruct ev as [d|cl].
    + unfold outcome, exec. rewrite (stream_body_block _ _ _ _ _ _ Hs).
      destruct (write_block_run i pos d s c content Hc Hf)
        as (S1 & C1 & D1 & O1).
      set (s1 := exec (write_block i pos d) s) in *.
      assert (chunks (engine s1) !! i =
              Some (set_downloaded (downloaded c + block_len d) c)) as Hc1.
      { rewrite C1. apply list_lookup_insert_eq.
        now apply lookup_lt_Some in Hc. }
      pose proof (block_len_nonneg d) as Hd.
      assert (Z.to_nat (pos + block_len d) = (Z.to_nat pos + length d)%nat)
        as Hpos by (unfold block_len; lia).
      destruct (IH (pos + block_len d) s1 _ _ ltac:(congruence) Hb Hc1 O1)
        as (R2 & S2 & C2 & D2 & O2).
      { lia. }
      { rewrite write_at_length, Hpos. lia. }
      unfold outcome, exec in R2, S2, C2, D2, O2.
      destruct (stream_body i (pos + block_len d) body EndOfBody s1)
        as [r2 s2].
      cbn [fst snd] in *. cbn [body_bytes body_data flat_map foldr].
      fold (body_bytes body). fold (body_data body).
      split_and!; try assumption.
      * rewrite C2, C1, list_insert_insert_eq, set_downloaded_twice.
        now rewrite Z.add_assoc.
      * lia.
      * rewrite O2, Hpos. now rewrite write_at_app.
    + apply negb_true_iff in Hev.
      destruct (control_calm cl s Hev) as [E1 (S1 & C1 & D1 & O1)].
      set (s1 := exec (control cl) s) in *.
      assert (is_stopped (engine s1) = false) as Hs1 by congruence.
      assert (chunks (engine s1) !! i = Some c) as Hc1 by congruence.
      assert (output_file (world s1) = Some content) as Hf1 by congruence.
      destruct (IH pos s1 c content Hs1 Hb Hc1 Hf1 Hp Hl)
        as (R2 & S2 & C2 & D2 & O2).
      unfold outcome, exec in R2, S2, C2, D2, O2 |- *.
      rewrite stream_body_call. fold s1.
      destruct (stream_body i pos body EndOfBody s1) as [r2 s2].
      cbn [fst snd] in *. cbn [body_bytes body_data flat_map foldr app].
      fold (body_bytes body). fold (body_data body).
      split_and!; try congruence.
Qed.

(** X7. An accepted response whose body ends normally, received while the
    stop flag stays clear: the transfer returns [True] at this first
    attempt after exactly one request, the chunk is completed and has
    advanced by the bytes of the body, and the destination holds those
    bytes, in order, from offset [start + downloaded], whether or not
    they fit the chunk. *)
Theorem accepted_response_is_written_at_the_offset
  (i : nat) (w : Z) (a : Attempt) (rest : list Attempt) (s : State)
  (c : ChunkInfo) (caps : ServerCapabilities) (content : list Byte.byte)
  (status : Z) (body : list StreamEvent) :
  is_stopped (engine s) = false ->
  chunks (engine s) !! i = Some c ->
  capabilities (engine s) = Some caps ->
  session (engine s) <> None ->
  output_file (world s) = Some content ->
  reply a = Response status body EndOfBody ->
  accepted status = true ->
  calm (while_connecting a) = true ->
  calm_body body = true ->
  0 <= start c + downloaded c ->
  (Z.to_nat (start c + downloaded c) <= length content)%nat ->
  let s' := exec (download_chunk_with_retry i w 5 (a :: rest)) s in
  outcome (download_chunk_with_retry i w 5 (a :: rest)) s = Return true /\
  chunks (engine s') =
    <[i := set_completed true
             (set_downloaded (downloaded c + body_bytes body) c)]>
      (chunks (engine s)) /\
  downloaded_size (engine s') = downloaded_size (engine s) + body_bytes body /\
  output_file (world s') =
    Some (write_at (Z.to_nat (start c + downloaded c)) (body_data body)
                   content) /\
  requests (effects (world s')) =
    (requests (effects (world s)) ++
       [(get_current_url (engine s), request_range caps c)])%list /\
  sleeps (effects (world s')) = sleeps (effects (world s)).
Proof.
  intros Hs Hc Hcaps Hses Hf Hrep Hacc Hcalm Hbody Hpos Hlen.
  set (s0 := exec (emit (Request (get_current_url (engine s))
                                 (request_range caps c))) s).
  destruct (controls_calm (while_connecting a) s0 Hcalm)
    as [E1 (S1 & C1 & D1 & O1)].
  destruct (controls_spec i _ _ _ _ E1) as (_ & n1 & Hm1 & Hq1).
  set (s1 := exec (controls (while_connecting a)) s0) in *.
  assert (is_stopped (engine s1) = false) as Hs1 by (rewrite S1; exact Hs).
  assert (chunks (engine s1) !! i = Some c) as Hc1 by (rewrite C1; exact Hc).
  assert (output_file (world s1) = Some content) as Hf1
    by (rewrite O1; exact Hf).
  destruct (stream_body_delivers i body _ s1 c content Hs1 Hbody Hc1 Hf1
              Hpos Hlen) as (R2 & S2 & C2 & D2 & O2).
  unfold outcome, exec in R2, S2, C2, D2, O2.
  destruct (stream_body i (start c + downloaded c) body EndOfBody s1)
    as [r2 s2] eqn:E2.
  cbn [fst snd] in R2, S2, C2, D2, O2. subst r2.
  destruct (stream_body_spec _ _ _ _ _ _ _ E2)
    as (n2 & Hm2 & Hr2 & Hsl2 & _ & _).
  assert (attempt_body i a s =
          (Return true, exec (upd_chunk i (set_completed true)) s2)) as Ea.
  { unfold attempt_body, get_chunk, get_capabilities, get_world, bind,
      get_engine.
    cbv beta iota. rewrite Hs, Hc. unfold ret at 1. cbv beta iota.
    rewrite Hcaps. unfold ret at 1. cbv beta iota.
    destruct (session (engine s)) as [ses|]; [|congruence].
    cbn [is_some]. unfold ret at 1. cbv beta iota.
    change (emit (Request (get_current_url (engine s))
                          (request_range caps c)) s)
      with (Return tt, s0).
    cbv beta iota. fold s1 in E1. rewrite E1. cbv beta iota.
    rewrite Hrep, Hacc. cbn [negb]. rewrite Hf1. cbn [is_some negb].
    destruct (Z.ltb_spec (start c + downloaded c) 0) as [Hlt|_]; [lia|].
    rewrite E2. reflexivity. }
  assert (download_chunk_with_retry i w 5 (a :: rest) s =
          (Return true, exec (upd_chunk i (set_completed true)) s2)) as Ed.
  { unfold download_chunk_with_retry. change (Z.to_nat 5) with 5%nat.
    cbn [retry_loop]. unfold try_except. now rewrite Ea. }
  unfold outcome, exec at 1 2 3 4 5. rewrite Ed. cbn [fst snd].
  pose proof (mv_effects _ _ _ _ _ Hm1) as He1.
  pose proof (mv_effects _ _ _ _ _ Hm2) as He2.
  destruct Hq1 as (Hq1r & Hq1s & _).
  destruct s2 as [e2 w2]. cbn in C2, D2, O2, He2 |- *.
  split_and!; try reflexivity.
  - rewrite C2, C1.
    rewrite (alter_as_insert (set_completed true) _ i
               (set_downloaded (downloaded c + body_bytes body) c)).
    + now rewrite list_insert_insert_eq.
    + apply list_lookup_insert_eq. now apply lookup_lt_Some in Hc.
  - rewrite D2, D1. reflexivity.
  - exact O2.
  - rewrite He2, He1. unfold s0. destruct s as [e0 w0]. cbn.
    rewrite !requests_app, Hr2, Hq1r. cbn. now rewrite !app_nil_r.
  - rewrite He2, He1. unfold s0. destruct s as [e0 w0]. cbn.
    rewrite !sleeps_app, Hsl2, Hq1s. cbn. now rewrite !app_nil_r.
Qed.

Lemma accepted_response_is_written_at_the_offset_witness :
  output_file (world (exec (download_chunk_with_retry 0 0 5
                              [plain_attempt 200 [Block five_bytes] EndOfBody])
                           five_claimed)) =
  Some (write_at 0 five_bytes (replicate 5 Byte.x00)).
Proof.
  exact (proj1 (proj2 (proj2 (proj2
    (accepted_response_is_written_at_the_offset 0 0
       (plain_attempt 200 [Block five_bytes] EndOfBody) [] five_claimed
       (set_thread_id (Some 0) (new_chunk 0 4)) default_capabilities
       (replicate 5 Byte.x00) 200 [Block five_bytes]
       eq_refl eq_refl eq_refl ltac:(discriminate) eq_refl eq_refl eq_refl
       eq_refl eq_refl ltac:(vm_compute; discriminate)
       ltac:(vm_compute; lia)))))).
Defined.

(** ** A paused worker between two chunks *)

Definition is_resume (c : ControlCall) : bool :=
  match c with CallResume => true | _ => false end.

(** No [resume] in any of the polls. *)
Definition stays_paused (ps : list (list ControlCall)) : bool :=
  forallb (forallb (fun c => negb (is_resume c))) ps.

(** What a worker held by the pause flag leaves alone. *)
Definition held (s s' : State) : Prop :=
  is_paused (engine s') = true /\
  chunks (engine s') = chunks (engine s) /\
  downloaded_size (engine s') = downloaded_size (engine s) /\
  output_file (world s') = output_file (world s) /\
  metadata_file (world s') = metadata_file (world s) /\
  requests (effects (world s')) = requests (effects (world s)).

Lemma held_trans s1 s2 s3 : held s1 s2 -> held s2 s3 -> held s1 s3.
Proof. unfold held. intuition congruence. Qed.

Lemma controls_held cs : forall s,
  is_paused (engine s) = true ->
  forallb (fun c => negb (is_resume c)) cs = true ->
  controls cs s = (Return tt, exec (controls cs) s) /\
  held s (exec (controls cs) s).
Proof.
  induction cs as [|c cs IH]; intros s Hp H.
  - cbn. unfold held. easy.
  - cbn in H. apply andb_prop in H as [Hc Hcs]. apply negb_true_iff in Hc.
    assert (control c s = (Return tt, exec (control c) s) /\
            held s (exec (control c) s)) as [E1 H1].
    { destruct c, s as [e w]; try discriminate; cbn in *; unfold held; cbn;
        rewrite ?requests_app, ?app_nil_r; easy. }
    destruct (IH (exec (control c) s) ltac:(apply H1) Hcs) as [E2 H2].
    assert (controls (c :: cs) s =
            (Return tt, exec (controls cs) (exec (control c) s))) as E
      by (cbn [controls]; unfold bind; rewrite E1; exact E2).
    assert (exec (controls (c :: cs)) s =
            exec (controls cs) (exec (control c) s)) as Hex
      by (unfold exec at 1; now rewrite E).
    rewrite Hex. split; [exact E|]. eapply held_trans; eauto.
Qed.

Lemma pause_loop_held ps : forall s,
  is_paused (engine s) = true ->
  stays_paused ps = true ->
  (outcome (pause_loop ps) s = Pending \/
   outcome (pause_loop ps) s = Return false /\
   is_stopped (engine (exec (pause_loop ps) s)) = true) /\
  held s (exec (pause_loop ps) s).
Proof.
  induction ps as [|cs ps IH]; intros s Hp H.
  - unfold outcome, exec. cbn [pause_loop]. unfold bind, get_engine.
    cbv beta iota. rewrite Hp. cbn. split; [now left|]. unfold held. easy.
  - cbn in H. apply andb_prop in H as [Hcs Hps].
    set (s0 := exec (emit PollSleep) s).
    assert (held s s0) as H0
      by (destruct s as [e w]; unfold held; cbn;
          rewrite requests_app, app_nil_r; easy).
    destruct (controls_held cs s0 ltac:(apply H0) Hcs) as [E1 H1].
    set (s1 := exec (controls cs) s0) in *.
    pose proof (held_trans _ _ _ H0 H1) as H01.
    assert (pause_loop (cs :: ps) s =
            if is_stopped (engine s1) then (Return false, s1)
            else pause_loop ps s1) as E.
    { cbn [pause_loop]. unfold bind at 1, get_engine. cbv beta iota.
      rewrite Hp. unfold bind at 1.
      change (emit PollSleep s) with (Return tt, s0). cbv beta iota.
      unfold bind at 1. rewrite E1. cbv beta iota.
      unfold bind at 1. cbv beta iota.
      now destruct (is_stopped (engine s1)). }
    unfold outcome, exec. rewrite E.
    destruct (is_stopped (engine s1)) eqn:Hst.
    + cbn [fst snd]. split; [right; easy | exact H01].
    + destruct (IH s1 ltac:(apply H1) Hps) as [Hout H2].
      split; [exact Hout|]. eapply held_trans; eauto.
Qed.

(** X8. While the pause flag is set and no [resume] comes, a worker that is
    between two chunks claims nothing and sends nothing: it polls, and
    returns only when the stop flag is set. *)
Theorem paused_worker_claims_nothing
  (w : Z) (r : Round) (rest : list Round) (s : State) :
  is_paused (engine s) = true ->
  stays_paused (polls r) = true ->
  let s' := exec (download_worker w (r :: rest)) s in
  (outcome (download_worker w (r :: rest)) s = Pending \/
   outcome (download_worker w (r :: rest)) s = Return tt /\
   is_stopped (engine s') = true) /\
  is_paused (engine s') = true /\
  chunks (engine s') = chunks (engine s) /\
  downloaded_size (engine s') = downloaded_size (engine s) /\
  output_file (world s') = output_file (world s) /\
  metadata_file (world s') = metadata_file (world s) /\
  requests (effects (world s')) = requests (effects (world s)).
Proof.
  intros Hp Hps. cbn zeta. unfold outcome, exec.
  destruct (is_stopped (engine s)) eqn:Hst.
  - rewrite (download_worker_stopped _ _ _ Hst). cbn [fst snd].
    split_and!; try easy. now right.
  - assert (download_worker w (r :: rest) s =
            worker_round w r (download_worker w rest) s) as E
      by (cbn [download_worker]; unfold bind at 1, get_engine;
          cbv beta iota; now rewrite Hst).
    rewrite E. unfold worker_round, bind.
    destruct (pause_loop_held (polls r) s Hp Hps) as [Hout Hh].
    unfold outcome, exec in Hout, Hh.
    destruct (pause_loop (polls r) s) as [r0 s0]. cbn [fst snd] in *.
    destruct Hout as [->|[-> Hs0]]; cbn [negb fst snd].
    + split; [now left | exact Hh].
    + split; [right; easy | exact Hh].
Qed.

Lemma paused_worker_claims_nothing_witness :
  let s := exec pause five_planned in
  let waiting := {| polls := [[]; [CallPause]; [CallStop]];
                    attempts := [] |} in
  find_free (chunks (engine s)) 0 = Some 0%nat /\
  chunks (engine (exec (download_worker 1 (waiting :: one_shot)) s)) =
  chunks (engine s).
Proof.
  cbn zeta. split; [reflexivity|].
  exact (proj1 (proj2 (proj2 (paused_worker_claims_nothing 1
           {| polls := [[]; [CallPause]; [CallStop]]; attempts := [] |}
           one_shot (exec pause five_planned) eq_refl eq_refl)))).
Defined.

(** ** The byte counter and the chunks *)

(** Predicates on states kept by every step a worker makes on a chunk
    of the vector, by the calls of the owner, by a claim and by any
    change of the files or the log that leaves the monitor task alone. *)
Record steady (P : State -> Prop) : Prop := mkSteady {
  sd_moved : forall j s s' new done c,
    chunks (engine s) !! j = Some c -> moved j s s' new done -> P s -> P s';
  sd_control : forall c s, P s -> P (exec (control c) s);
  sd_world : forall s w',
    monitor_task w' = monitor_task (world s) ->
    P s -> P {| engine := engine s; world := w' |};
  sd_claim : forall s j w' c,
    chunks (engine s) !! j = Some c -> is_free c = true -> P s ->
    P {| engine :=
           set_chunks (alter (set_thread_id (Some w')) j (chunks (engine s)))
                      (engine s);
         world := world s |}
}.

Section Steady.

Variable P : State -> Prop.
Hypothesis HP : steady P.

Lemma controls_steady cs : forall s, P s -> P (exec (controls cs) s).
Proof.
  induction cs as [|c cs IH]; intros s Hs; [exact Hs|].
  assert (exec (controls (c :: cs)) s =
          exec (controls cs) (exec (control c) s)) as ->.
  { unfold exec. cbn [controls]. unfold bind.
    destruct (moved_control 0%nat c s) as (x & Hout & _).
    unfold outcome in Hout. destruct (control c s) as [r1 s1].
    cbn in Hout. now subst r1. }
  apply IH. now apply (sd_control P HP).
Qed.

Lemma pause_loop_steady ps : forall s, P s -> P (exec (pause_loop ps) s).
Proof.
  induction ps as [|cs ps IH]; intros s Hs; unfold exec;
    cbn [pause_loop]; unfold bind at 1, get_engine; cbv beta iota;
    destruct (is_paused (engine s)); try exact Hs.
  unfold bind at 1.
  change (emit PollSleep s)
    with (Return tt, {| engine := engine s;
                        world := log_effect PollSleep (world s) |}).
  cbv beta iota. unfold bind at 1.
  pose proof (controls_steady cs _ (sd_world P HP s
                (log_effect PollSleep (world s)) eq_refl Hs)) as H1.
  unfold exec in H1.
  destruct (controls cs _) as [r1 s1] eqn:E1. cbn [snd] in H1.
  destruct (controls_spec 0%nat _ _ _ _ E1) as [-> _].
  unfold bind at 1, get_engine. cbv beta iota.
  destruct (is_stopped (engine s1)); [exact H1|]. now apply IH.
Qed.

Lemma get_next_chunk_steady w s :
  P s ->
  P (exec (get_next_chunk w) s) /\
  match outcome (get_next_chunk w) s with
  | Return (Some i) =>
      exists c, chunks (engine (exec (get_next_chunk w) s)) !! i = Some c
  | Return None => True
  | _ => False
  end.
Proof.
  intros Hs. unfold exec, outcome.
  pose proof (get_next_chunk_run w s) as Hrun.
  pose proof (find_free_spec (chunks (engine s)) 0) as Hff.
  destruct (find_free (chunks (engine s)) 0) as [j|]; rewrite Hrun;
    cbn [fst snd]; [|easy].
  destruct Hff as (i & c & -> & Hi & Hfree & _). cbn [Nat.add].
  split; [eapply sd_claim; eauto|].
  cbn. rewrite list_lookup_alter_eq, Hi. cbn. eauto.
Qed.

Lemma transfer_steady i w m script s c :
  chunks (engine s) !! i = Some c ->
  P s -> P (exec (download_chunk_with_retry i w m script) s).
Proof.
  intros Hc Hs. unfold exec, download_chunk_with_retry.
  destruct (retry_loop i w m (Z.to_nat m) 0 script s) as [r s'] eqn:E.
  destruct (retry_loop_spec _ _ _ _ _ _ _ _ _ _ Hc E)
    as (new & done & Hm & _).
  eapply sd_moved; eauto.
Qed.

Lemma save_metadata_steady s : P s -> P (exec save_metadata s).
Proof.
  intros Hs. unfold exec, save_metadata, get_capabilities, bind, get_engine,
    get_world.
  cbv beta iota.
  destruct (capabilities (engine s)) as [caps|]; [|exact Hs].
  unfold ret at 1. cbv beta iota.
  destruct (supports_resume caps); cbn [negb]; [|exact Hs].
  destruct (dir_writable (world s)); now apply (sd_world P HP).
Qed.

Lemma worker_round_steady w rd next s :
  (forall s0, P s0 -> P (exec next s0)) ->
  P s -> P (exec (worker_round w rd next) s).
Proof.
  intros Hnext Hs. unfold exec, worker_round. unfold bind at 1.
  pose proof (pause_loop_steady (polls rd) s Hs) as H0. unfold exec in H0.
  destruct (pause_loop (polls rd) s) as [r0 s0]. cbn [snd] in H0.
  destruct r0 as [go|x|]; [|exact H0..].
  destruct go; cbn [negb]; [|exact H0].
  unfold bind at 1.
  destruct (get_next_chunk_steady w s0 H0) as [H1 Hex].
  unfold exec, outcome in H1, Hex.
  destruct (get_next_chunk w s0) as [r1 s1]. cbn [fst snd] in H1, Hex.
  destruct r1 as [[i|]|x|]; try easy.
  destruct Hex as (c & Hc). unfold bind at 1.
  pose proof (transfer_steady i w 5 (attempts rd) s1 c Hc H1) as H2.
  unfold exec in H2.
  destruct (download_chunk_with_retry i w 5 (attempts rd) s1) as [r2 s2].
  cbn [snd] in H2.
  destruct r2 as [ok|x|]; [|exact H2..].
  unfold bind at 1.
  assert (P (exec (if ok then save_metadata
                   else _update_status (MsgChunkFailed w)) s2)) as H3.
  { destruct ok; [now apply save_metadata_steady|].
    now apply (sd_world P HP). }
  unfold exec in H3.
  destruct ((if ok then save_metadata
             else _update_status (MsgChunkFailed w)) s2) as [r3 s3].
  cbn [snd] in H3.
  destruct r3; [now apply Hnext | exact H3..].
Qed.

Lemma download_worker_steady w script : forall s,
  P s -> P (exec (download_worker w script) s).
Proof.
  induction script as [|rd rest IH]; intros s Hs;
    unfold exec; cbn [download_worker]; unfold bind at 1, get_engine;
    cbv beta iota; destruct (is_stopped (engine s)); try exact Hs.
  - apply worker_round_steady; [|exact Hs]. intros s0 Hs0. exact Hs0.
  - apply worker_round_steady; [exact IH|exact Hs].
Qed.

Lemma run_steps_steady : forall l s, P s -> P (run_steps l s).
Proof.
  induction l as [|x l IH]; intros s Hs; cbn; [exact Hs|].
  apply IH. destruct x as [w script|c]; cbn.
  - now apply download_worker_steady.
  - now apply (sd_control P HP).
Qed.

End Steady.

Lemma sum_downloaded_insert cs : forall (i : nat) c c',
  cs !! i = Some c ->
  sum_downloaded (<[i := c']> cs) =
  sum_downloaded cs + (downloaded c' - downloaded c).
Proof.
  unfold sum_downloaded.
  induction cs as [|c0 cs IH]; intros [|i] c c' H; cbn in *;
    try discriminate.
  - injection H as ->. lia.
  - rewrite <- Z.add_assoc. f_equal. exact (IH _ _ c' H).
Qed.

(** A step on a chunk of the vector replaces that chunk and no other. *)
Lemma moved_chunks j s s' new done c :
  chunks (engine s) !! j = Some c ->
  moved j s s' new done ->
  exists c', chunks (engine s') = <[j := c']> (chunks (engine s)) /\
             chunk_moved new done c c'.
Proof.
  intros Hc Hm. destruct (mv_chunk _ _ _ _ _ Hm c Hc) as (c' & Hc' & Hcm).
  exists c'. split; [|exact Hcm]. apply list_eq. intros k.
  destruct (decide (k = j)) as [->|Hne].
  - rewrite Hc'. symmetry. apply list_lookup_insert_eq.
    now apply lookup_lt_Some in Hc.
  - rewrite list_lookup_insert_ne by congruence.
    now apply (mv_other _ _ _ _ _ Hm).
Qed.

(** [downloaded_size] exceeds the sum of the chunks' [downloaded] by
    [k]. *)
Definition balanced (k : Z) (s : State) : Prop :=
  downloaded_size (engine s) = sum_downloaded (chunks (engine s)) + k.

Lemma balanced_steady k : steady (balanced k).
Proof.
  unfold balanced. constructor.
  - intros j s s' new done c Hc Hm H.
    destruct (moved_chunks _ _ _ _ _ _ Hc Hm) as (c' & -> & Hcm).
    destruct Hcm as (_ & _ & _ & Hd & _).
    rewrite (sum_downloaded_insert _ _ _ c' Hc), (mv_size _ _ _ _ _ Hm). lia.
  - intros c s H. destruct c, s as [e w]; exact H.
  - intros s w' _ H. exact H.
  - intros s j w' c Hc _ H. cbn.
    rewrite (alter_as_insert _ _ _ _ Hc), (sum_downloaded_insert _ _ _ _ Hc).
    cbn. lia.
Qed.

(** X9. Whatever workers and owner do in a session, [downloaded_size] and
    the sum of the chunks' [downloaded] advance together: their
    difference never changes.  After a resume, where [load_metadata]
    sets the counter to that sum, and after a fresh plan, where both
    are 0, the counter is the sum of the chunks' [downloaded]. *)
Theorem downloaded_size_tracks_the_chunks (steps : list SessionStep) (s : State) :
  let s' := run_steps steps s in
  downloaded_size (engine s') - sum_downloaded (chunks (engine s')) =
  downloaded_size (engine s) - sum_downloaded (chunks (engine s)).
Proof.
  cbn zeta.
  pose proof (run_steps_steady _
    (balanced_steady
       (downloaded_size (engine s) - sum_downloaded (chunks (engine s))))
    steps s) as H.
  unfold balanced in H. specialize (H ltac:(lia)). lia.
Qed.

(** ** Chunks only advance *)

(** What a session may do to a chunk: its bounds stay, its claimant
    stays once it has one, and [downloaded], [retries] and [completed]
    never go back. *)
Definition advanced (c c' : ChunkInfo) : Prop :=
  start c' = start c /\ end_ c' = end_ c /\
  downloaded c <= downloaded c' /\
  retries c <= retries c' /\
  (completed c = true -> completed c' = true) /\
  (thread_id c <> None -> thread_id c' = thread_id c).

Lemma advanced_trans c1 c2 c3 :
  advanced c1 c2 -> advanced c2 c3 -> advanced c1 c3.
Proof.
  unfold advanced. intros (S1 & E1 & D1 & R1 & C1 & T1)
                          (S2 & E2 & D2 & R2 & C2 & T2).
  split_and!; try congruence; try lia; auto.
  intros H. rewrite T2; [auto|]. rewrite (T1 H). exact H.
Qed.

Lemma advanced_insert (cs0 cs : list ChunkInfo) (j : nat) c c' :
  Forall2 advanced cs0 cs -> cs !! j = Some c -> advanced c c' ->
  Forall2 advanced cs0 (<[j := c']> cs).
Proof.
  intros H Hc Ha. apply Forall2_same_length_lookup in H as [Hlen H].
  apply Forall2_same_length_lookup. split; [now rewrite length_insert|].
  intros k x y Hx Hy. destruct (decide (k = j)) as [->|Hne].
  - rewrite list_lookup_insert_eq in Hy by (now apply lookup_lt_Some in Hc).
    injection Hy as <-. eapply advanced_trans; [|exact Ha]. eauto.
  - rewrite list_lookup_insert_ne in Hy by congruence. eauto.
Qed.

Lemma advanced_steady cs0 :
  steady (fun s => Forall2 advanced cs0 (chunks (engine s))).
Proof.
  constructor.
  - intros j s s' new done c Hc Hm H.
    destruct (moved_chunks _ _ _ _ _ _ Hc Hm) as (c' & -> & Hcm).
    apply (advanced_insert _ _ _ c); [exact H|exact Hc|].
    destruct Hcm as (Hs & He & Ht & Hd & Hr & Hcp).
    pose proof (mv_nonneg _ _ _ _ _ Hm).
    unfold advanced. split_and!; try assumption; try lia; [|easy].
    intros Hdone. now rewrite Hcp, Hdone.
  - intros c s H. destruct c, s as [e w]; exact H.
  - intros s w' _ H. exact H.
  - intros s j w' c Hc Hfree H. cbn.
    rewrite (alter_as_insert _ _ _ _ Hc).
    apply (advanced_insert _ _ _ c); [exact H|exact Hc|].
    apply is_free_true in Hfree as [_ Hnone].
    unfold advanced. cbn. split_and!; try easy; lia.
Qed.

(** X10. Whatever workers and owner do in a session, the chunk vector keeps
    its length and every chunk its bounds; a chunk that has a claimant
    keeps it, and [downloaded], [retries] and [completed] never go
    back. *)
Theorem chunks_only_advance (steps : list SessionStep) (s : State) :
  Forall2 advanced (chunks (engine s)) (chunks (engine (run_steps steps s))).
Proof.
  apply (run_steps_steady _ (advanced_steady (chunks (engine s)))).
  apply Forall2_same_length_lookup. split; [reflexivity|].
  intros i x y Hx Hy. rewrite Hx in Hy. injection Hy as <-.
  unfold advanced. split_and!; try easy; lia.
Qed.

(** ** The [finally] block once the workers have been started *)














(** ** The fresh plan *)

(** A chunk as the planner creates it. *)
Definition untouched (c : ChunkInfo) : Prop :=
  downloaded c = 0 /\ completed c = false /\ retries c = 0 /\
  thread_id c = None.

Lemma plan_chunks_untouched total num :
  Forall untouched (plan_chunks total num).
Proof.
  unfold plan_chunks. apply Forall_map. apply Forall_forall.
  intros i _. unfold untouched. cbn. easy.
Qed.

(** X12. With range support, no sidecar, and a size of at least one byte per
    worker, [prepare_chunks] on an engine without chunks plans exactly
    [num_threads] untouched chunks, non-empty and laid end to end from
    offset 0 to offset [total_size - 1]: every offset of the file lies
    in one chunk, no two chunks overlap, and the lengths add up to
    [total_size]. *)
Theorem fresh_plan_tiles_the_file (s : State) (c : ServerCapabilities) :
  metadata_file (world s) = None ->
  capabilities (engine s) = Some c ->
  supports_range c = true ->
  1 <= num_threads (engine s) <= total_size (engine s) ->
  chunks (engine s) = [] ->
  let cs := chunks (engine (exec prepare_chunks s)) in
  let total := total_size (engine s) in
  outcome prepare_chunks s = Return tt /\
  Z.of_nat (length cs) = num_threads (engine s) /\
  tiles cs 0 (total - 1) /\
  Forall untouched cs /\
  total_len cs = total /\
  (forall x, 0 <= x < total <->
             exists ch, In ch cs /\ start ch <= x <= end_ ch) /\
  (forall (i j : nat) ci cj,
     cs !! i = Some ci -> cs !! j = Some cj -> (i < j)%nat ->
     end_ ci < start cj).
Proof.
  intros Hmeta Hcaps Hrange [Hnum Hfit] Hchunks. cbn zeta.
  destruct (prepare_chunks_fresh_plan s c Hmeta Hcaps Hrange
              ltac:(lia) ltac:(lia) Hchunks) as [Hout ->].
  destruct (plan_chunks_tiles _ _ Hnum Hfit) as [Hlen Htiles].
  split_and!; try assumption.
  - rewrite Hlen. lia.
  - apply plan_chunks_untouched.
  - rewrite (tiles_total_len _ _ _ Htiles). lia.
  - intros x. rewrite <- (tiles_cover _ _ _ x Htiles). lia.
  - intros i j ci cj Hi Hj Hlt. eapply tiles_disjoint; eauto.
Qed.

(** An engine with 4 workers after the probe of a server that supports
    ranges and announces 10 bytes. *)
Definition ten_ranged : State :=
  exec (initialize true
          (ProbeHeaders [("Accept-Ranges", "bytes"); ("Content-Length", "10")]))
       (initial "http://t/f" 4 empty_world).

Lemma fresh_plan_tiles_the_file_witness :
  tiles (chunks (engine (exec prepare_chunks ten_ranged)))
        0 (total_size (engine ten_ranged) - 1).
Proof.
  refine (proj1 (proj2 (proj2 (fresh_plan_tiles_the_file ten_ranged
    {| supports_range := true; supports_resume := true;
       supports_compression := false; supports_http2 := false;
       max_connections := 8; content_encoding := None |} _ _ _ _ _)))).
  - vm_compute. reflexivity.
  - vm_compute. reflexivity.
  - reflexivity.
  - vm_compute. split; discriminate.
  - vm_compute. reflexivity.
Defined.

(** ** The url requests go to *)

Lemma current_url_steady u :
  steady (fun s => get_current_url (engine s) = u).
Proof.
  constructor.
  - intros j s s' new done c _ Hm H.
    now rewrite (get_current_url_same _ _ (mv_config _ _ _ _ _ Hm)).
  - intros c s H. destruct c, s as [e w]; exact H.
  - intros s w' _ H. exact H.
  - intros s j w' c _ _ H. exact H.
Qed.

(** X13. Nothing in a session switches mirror: [get_current_url] gives the
    same url from start to end, and for an engine without mirrors, as
    the constructor builds it, that url is [url]. *)
Theorem get_current_url_is_fixed (steps : list SessionStep) (s : State) :
  get_current_url (engine (run_steps steps s)) = get_current_url (engine s) /\
  (mirrors (engine s) = [] ->
   get_current_url (engine (run_steps steps s)) = url (engine s)).
Proof.
  assert (get_current_url (engine (run_steps steps s)) =
          get_current_url (engine s)) as H
    by (now apply (run_steps_steady _ (current_url_steady _))).
  split; [exact H|]. intros Hm. rewrite H. unfold get_current_url.
  now rewrite Hm.
Qed.

(** * The speed graph ([graph.py])

    The data kept by [SpeedGraph]: two [deque(maxlen=60)] of floating
    point numbers, and the two series last handed to [ax.plot] since the
    axes were cleared.  The numbers are never computed with here, their
    type is a parameter; styling, axis limits and drawing are left
    out. *)

Module Graph.

Definition maxlen : nat := 60.

(** [deque.append] on a deque bounded by [maxlen]: when full, the
    oldest element is dropped. *)
Definition append {A} (x : A) (d : list A) : list A :=
  drop (length (d ++ [x]) - maxlen) (d ++ [x]).

Record SpeedGraph (A : Type) := mkGraph {
  time_data : list A;
  speed_data : list A;
  plotted : option (list A * list A)
}.
Arguments mkGraph {A}.
Arguments time_data {A}.
Arguments speed_data {A}.
Arguments plotted {A}.

(** The graph as [__init__] leaves it. *)
Definition new_graph {A} : SpeedGraph A :=
  {| time_data := []; speed_data := []; plotted := None |}.

Definition nonempty {A} (l : list A) : bool :=
  match l with [] => false | _ => true end.

Definition update_plot {A} (time_point speed_point : A) (g : SpeedGraph A)
  : SpeedGraph A :=
  let td := append time_point (time_data g) in
  let sd := append speed_point (speed_data g) in
  {| time_data := td; speed_data := sd;
     plotted := if nonempty td && nonempty sd then Some (td, sd) else None |}.

Definition reset {A} (g : SpeedGraph A) : SpeedGraph A :=
  {| time_data := []; speed_data := []; plotted := None |}.

(** The calls [update_plot(t, v)] for the points of [pts], in order. *)
Definition update_all {A} (pts : list (A * A)) (g : SpeedGraph A)
  : SpeedGraph A :=
  fold_left (fun g p => update_plot (fst p) (snd p) g) pts g.

(** The last [maxlen] elements. *)
Definition window {A} (l : list A) : list A := drop (length l - maxlen) l.

Lemma append_window {A} (x : A) (l : list A) :
  append x (window l) = window (l ++ [x]).
Proof.
  unfold append, window, maxlen. rewrite !length_app, length_drop. cbn.
  destruct (le_lt_dec 60 (length l)) as [Hge|Hlt].
  - replace (length l - (length l - 60) + 1 - 60)%nat with 1%nat by lia.
    replace (length l + 1 - 60)%nat with (S (length l - 60)) by lia.
    rewrite !drop_app_le by (rewrite ?length_drop; lia).
    now rewrite drop_drop, Nat.add_1_r.
  - replace (length l - 60)%nat with 0%nat by lia.
    replace (length l - 0 + 1 - 60)%nat with 0%nat by lia.
    replace (length l + 1 - 60)%nat with 0%nat by lia.
    reflexivity.
Qed.

Lemma window_length {A} (l : list A) :
  length (window l) = Nat.min (length l) maxlen.
Proof. unfold window. rewrite length_drop. lia. Qed.

Lemma window_snoc_nonempty {A} (l : list A) (x : A) :
  nonempty (window (l ++ [x])) = true.
Proof.
  pose proof (window_length (l ++ [x])) as H. rewrite length_app in H.
  cbn in H. unfold maxlen in H.
  destruct (window (l ++ [x])); [cbn in H; lia | reflexivity].
Qed.

Lemma update_all_snoc {A} (pts : list (A * A)) p g :
  update_all (pts ++ [p]) g = update_plot (fst p) (snd p) (update_all pts g).
Proof. unfold update_all. now rewrite fold_left_app. Qed.

End Graph.

(** X14. After [reset], whatever points are then plotted, the two deques are
    the last 60 time points and the last 60 speed points, in order: they
    have the same length, at most 60, and once a point has been plotted
    they are the two series handed to [ax.plot]. *)
Theorem speed_graph_keeps_the_last_60_points
  {A : Type} (pts : list (A * A)) (g : Graph.SpeedGraph A) :
  let g' := Graph.update_all pts (Graph.reset g) in
  Graph.time_data g' = Graph.window (map fst pts) /\
  Graph.speed_data g' = Graph.window (map snd pts) /\
  length (Graph.time_data g') = length (Graph.speed_data g') /\
  (length (Graph.time_data g') <= 60)%nat /\
  Graph.plotted g' =
    match pts with
    | [] => None
    | _ => Some (Graph.time_data g', Graph.speed_data g')
    end.
Proof.
  cbn zeta.
  assert (Graph.time_data (Graph.update_all pts (Graph.reset g)) =
            Graph.window (map fst pts) /\
          Graph.speed_data (Graph.update_all pts (Graph.reset g)) =
            Graph.window (map snd pts) /\
          Graph.plotted (Graph.update_all pts (Graph.reset g)) =
            match pts with
            | [] => None
            | _ => Some (Graph.window (map fst pts),
                         Graph.window (map snd pts))
            end) as (Ht & Hs & Hp).
  { induction pts as [|p pts IH] using rev_ind; [easy|].
    destruct IH as (Ht & Hs & _).
    rewrite Graph.update_all_snoc, !map_app. cbn [map].
    unfold Graph.update_plot. cbn.
    rewrite Ht, Hs, !Graph.append_window, !Graph.window_snoc_nonempty.
    cbn. split_and!; try reflexivity. now destruct pts. }
  rewrite Ht, Hs, Hp, !Graph.window_length, !length_map.
  split_and!; try reflexivity; try (unfold Graph.maxlen; lia).
Qed.
